(** * tc_generator.js: the streaming event consumer, the progress tracker,
      the completion handler and the downloader

    A shallow embedding of [static/tcgen/tc_generator.js].

    Conventions of the embedding.
    - A JavaScript string is the list of its UTF-16 code units.
    - A value produced by [JSON.parse] is a [json]; [undefined] is the
      [None] of [option json].
    - JavaScript numbers are idealised: finite values are exact rationals,
      together with the two infinities and NaN.  Binary rounding of doubles
      and the sign of zero are not represented.
    - A DOM text node stores the value handed to [String(...)] or to a
      template literal, not the rendered characters.
    - Runtime services that are not part of the file ([JSON.parse], the
      message table [I18N], [atob], [performance.now], the coercion of
      strings and objects to numbers) are parameters of the sections below. *)

From Stdlib Require Import ZArith QArith Qround List Bool String Ascii Lia.
From Stdlib.Strings Require Import Byte.
Import ListNotations.

Set Warnings "-register-all".
Local Open Scope Z_scope.

(* ------------------------------------------------------------------ *)
(** ** JavaScript strings                                              *)
(* ------------------------------------------------------------------ *)

Definition jsstring := list Z.

(** An ASCII literal of the source as a list of code units. *)
Definition lit (s : string) : jsstring :=
  map (fun a => Z.of_N (N_of_ascii a)) (list_ascii_of_string s).

Fixpoint str_eqb (a b : jsstring) : bool :=
  match a, b with
  | [], [] => true
  | x :: a', y :: b' => (x =? y) && str_eqb a' b'
  | _, _ => false
  end.

(** [s.length === 0] *)
Definition str_empty (s : jsstring) : bool :=
  match s with [] => true | _ => false end.

(* ------------------------------------------------------------------ *)
(** ** Numbers                                                         *)
(* ------------------------------------------------------------------ *)

Module Num.

Inductive num :=
| Fin (q : Q)
| PInf
| NInf
| NaN.

Definition zero : num := Fin 0%Q.

(** -1, 0 or 1 *)
Definition Qsign (q : Q) : Z := Z.sgn (Qnum q).

Definition inf_of_sign (s : Z) : num :=
  if s =? 0 then NaN else if 0 <? s then PInf else NInf.

Definition sign (a : num) : Z :=
  match a with
  | Fin q => Qsign q
  | PInf => 1
  | NInf => -1
  | NaN => 0
  end.

(** [a - b] *)
Definition sub (a b : num) : num :=
  match a, b with
  | NaN, _ | _, NaN => NaN
  | Fin x, Fin y => Fin (x - y)%Q
  | Fin _, PInf => NInf
  | Fin _, NInf => PInf
  | PInf, PInf => NaN
  | PInf, _ => PInf
  | NInf, NInf => NaN
  | NInf, _ => NInf
  end.

(** [a * b] *)
Definition mul (a b : num) : num :=
  match a, b with
  | NaN, _ | _, NaN => NaN
  | Fin x, Fin y => Fin (x * y)%Q
  | _, _ => inf_of_sign (sign a * sign b)
  end.

(** [a / b]; a zero divisor counts as +0 *)
Definition div (a b : num) : num :=
  match a, b with
  | NaN, _ | _, NaN => NaN
  | Fin x, Fin y =>
      if Qeq_bool y 0 then inf_of_sign (Qsign x) else Fin (x / y)%Q
  | Fin _, _ => zero
  | _, Fin y => inf_of_sign (sign a * (if Qeq_bool y 0 then 1 else Qsign y))
  | _, _ => NaN
  end.

(** [Math.round]: to the nearest integer, halves towards +infinity *)
Definition Qround_half_up (x : Q) : Z := Qfloor (x + (1 # 2))%Q.

Definition round (a : num) : num :=
  match a with
  | Fin x => Fin (inject_Z (Qround_half_up x))
  | _ => a
  end.

(** [a <= b] on numbers that are not NaN *)
Definition leb (a b : num) : bool :=
  match a, b with
  | NInf, _ => true
  | _, PInf => true
  | Fin x, Fin y => Qle_bool x y
  | _, _ => false
  end.

(** [Math.max(a, b)] *)
Definition max (a b : num) : num :=
  match a, b with
  | NaN, _ | _, NaN => NaN
  | _, _ => if leb a b then b else a
  end.

(** [Math.min(a, b)] *)
Definition min (a b : num) : num :=
  match a, b with
  | NaN, _ | _, NaN => NaN
  | _, _ => if leb a b then a else b
  end.

(** ToBoolean on a number *)
Definition truthy (a : num) : bool :=
  match a with
  | Fin q => negb (Qeq_bool q 0)
  | NaN => false
  | _ => true
  end.

Definition of_Z (z : Z) : num := Fin (inject_Z z).

End Num.

Import Num.

(* ------------------------------------------------------------------ *)
(** ** JSON values and the operators the source applies to them        *)
(* ------------------------------------------------------------------ *)

Inductive json :=
| JNull
| JBool (b : bool)
| JNum (q : Q)
| JStr (s : jsstring)
| JArr (items : list json)
| JObj (fields : list (jsstring * json)).

Definition JInt (z : Z) : json := JNum (inject_Z z).

(** ToBoolean *)
Definition truthy (v : json) : bool :=
  match v with
  | JNull => false
  | JBool b => b
  | JNum q => negb (Qeq_bool q 0)
  | JStr s => negb (str_empty s)
  | JArr _ | JObj _ => true
  end.

(** ToBoolean on a value that may be undefined *)
Definition truthy_opt (a : option json) : bool :=
  match a with
  | Some v => truthy v
  | None => false
  end.

(** [a || d] where [a] may be undefined *)
Definition or_else (a : option json) (d : json) : json :=
  match a with
  | Some v => if truthy v then v else d
  | None => d
  end.

(** [a ?? d] where [a] may be undefined *)
Definition nullish (a : option json) (d : json) : json :=
  match a with
  | Some JNull | None => d
  | Some v => v
  end.

(** [a ?? b] where both may be undefined *)
Definition nullish_opt (a b : option json) : option json :=
  match a with
  | Some JNull | None => b
  | Some v => Some v
  end.

Fixpoint assoc (k : jsstring) (fs : list (jsstring * json)) : option json :=
  match fs with
  | [] => None
  | (k', v) :: fs' => if str_eqb k k' then Some v else assoc k fs'
  end.

(** [v.k] on a value that is not null: an own property of an object made
    by [JSON.parse]; none of the names the source reads is inherited from
    a prototype, so any other value gives [undefined]. *)
Definition get (v : json) (k : string) : option json :=
  match v with
  | JObj fs => assoc (lit k) fs
  | _ => None
  end.

(** [v?.k] where [v] may be undefined or null *)
Definition get_opt (v : option json) (k : string) : option json :=
  match v with
  | Some JNull | None => None
  | Some o => get o k
  end.

(** [v === "text"] *)
Definition is_str (v : option json) (text : string) : bool :=
  match v with
  | Some (JStr s) => str_eqb s (lit text)
  | _ => false
  end.

(* ------------------------------------------------------------------ *)
(** ** [new TextDecoder("utf-8")] used with [{ stream: true }]          *)
(* ------------------------------------------------------------------ *)

(** The decoder of the Encoding Standard: a state machine fed one byte at
    a time.  With [stream: true] its state survives the end of a chunk,
    so a character cut by a chunk boundary is completed by the next
    chunk.  An ill-formed sequence yields U+FFFD (the decoder is not
    fatal) and one leading U+FEFF is dropped (ignoreBOM is off). *)
Module Utf8.

Record utf8 := mk_utf8 {
  code_point : Z;
  bytes_seen : Z;
  bytes_needed : Z;
  lower_boundary : Z;
  upper_boundary : Z
}.

Definition fresh : utf8 := mk_utf8 0 0 0 0x80 0xBF.

Definition between (lo hi b : Z) : bool := (lo <=? b) && (b <=? hi).

(** A byte met while no sequence is open. *)
Definition lead (b : Z) : utf8 * list Z :=
  if between 0x00 0x7F b then (fresh, [b])
  else if between 0xC2 0xDF b then
    (mk_utf8 (Z.land b 0x1F) 0 1 0x80 0xBF, [])
  else if between 0xE0 0xEF b then
    (mk_utf8 (Z.land b 0xF) 0 2
       (if b =? 0xE0 then 0xA0 else 0x80)
       (if b =? 0xED then 0x9F else 0xBF), [])
  else if between 0xF0 0xF4 b then
    (mk_utf8 (Z.land b 0x7) 0 3
       (if b =? 0xF0 then 0x90 else 0x80)
       (if b =? 0xF4 then 0x8F else 0xBF), [])
  else (fresh, [0xFFFD]).

(** One step of the handler: the new state and the code points emitted.
    A byte that cannot continue the open sequence closes it with U+FFFD
    and is looked at again as a leading byte. *)
Definition handler (u : utf8) (b : Z) : utf8 * list Z :=
  if bytes_needed u =? 0 then lead b
  else if negb (between (lower_boundary u) (upper_boundary u) b) then
    let (u', out) := lead b in (u', 0xFFFD :: out)
  else
    let cp := Z.lor (Z.shiftl (code_point u) 6) (Z.land b 0x3F) in
    let seen := bytes_seen u + 1 in
    if seen =? bytes_needed u then (fresh, [cp])
    else (mk_utf8 cp seen (bytes_needed u) 0x80 0xBF, []).

(** The code units of a scalar value. *)
Definition utf16 (cp : Z) : jsstring :=
  if cp <? 0x10000 then [cp]
  else [0xD800 + Z.shiftr (cp - 0x10000) 10;
        0xDC00 + Z.land (cp - 0x10000) 0x3FF].

Record TextDecoder := mk_decoder {
  machine : utf8;
  BOM_seen : bool
}.

Definition create : TextDecoder := mk_decoder fresh false.

(** Serialising the emitted code points: the first one switches
    [BOM_seen] on and is dropped when it is U+FEFF. *)
Fixpoint serialize (seen : bool) (cps : list Z) : bool * jsstring :=
  match cps with
  | [] => (seen, [])
  | cp :: rest =>
      let (seen', out) := serialize true rest in
      if negb seen && (cp =? 0xFEFF) then (seen', out)
      else (seen', utf16 cp ++ out)
  end.

Definition decode_byte (d : TextDecoder) (b : byte) : TextDecoder * jsstring :=
  let (u, cps) := handler (machine d) (Z.of_N (Byte.to_N b)) in
  let (seen, out) := serialize (BOM_seen d) cps in
  (mk_decoder u seen, out).

(** [decoder.decode(value, { stream: true })] *)
Fixpoint decode (d : TextDecoder) (value : list byte) : TextDecoder * jsstring :=
  match value with
  | [] => (d, [])
  | b :: rest =>
      let (d1, out1) := decode_byte d b in
      let (d2, out2) := decode d1 rest in
      (d2, out1 ++ out2)
  end.

End Utf8.

(* ------------------------------------------------------------------ *)
(** ** Lines                                                           *)
(* ------------------------------------------------------------------ *)

Definition LF : Z := 10.

(** [s.split("\n")]: never empty. *)
Fixpoint split_nl (s : jsstring) : list jsstring :=
  match s with
  | [] => [[]]
  | c :: s' =>
      if c =? LF then [] :: split_nl s'
      else match split_nl s' with
           | [] => [[c]]
           | l :: ls => (c :: l) :: ls
           end
  end.

(** [lines.pop()], an empty string when it is falsy, together with what
    is left in [lines]. *)
Definition pop (lines : list jsstring) : list jsstring * jsstring :=
  (removelast lines, last lines []).

(** White space and line terminators, the characters [trim] removes. *)
Definition is_space (c : Z) : bool :=
  (9 <=? c) && (c <=? 13) || (c =? 0x20) || (c =? 0xA0) || (c =? 0x1680)
  || (0x2000 <=? c) && (c <=? 0x200A)
  || (c =? 0x2028) || (c =? 0x2029) || (c =? 0x202F) || (c =? 0x205F)
  || (c =? 0x3000) || (c =? 0xFEFF).

(** [!line.trim()] *)
Definition blank (line : jsstring) : bool := forallb is_space line.

(* ------------------------------------------------------------------ *)
(** ** The page: what the script writes                                *)
(* ------------------------------------------------------------------ *)

(** The text handed to [setProgress]. *)
Inductive ptext :=
| Plain (message : json)
    (* a message of the table *)
| Preparing (label total : json)
    (* `${label} (0/${total})` *)
| Processing (label req : json) (scenario : option json)
             (done total : json) (eta : option num).
    (* `${label} ${req}${scenario} (${done}/${total})${etaTxt}` *)

(** A template literal with fixed characters in it is never empty. *)
Definition ptext_truthy (p : ptext) : bool :=
  match p with
  | Plain m => truthy m
  | _ => true
  end.

(** One [<li>] of the limit detail: the requirement and, when it is a
    finite number, the count of omitted test cases. *)
Inductive limit_item :=
| LimitReached (req : json) (omitted : option Q).

(** Every element the script looks up is taken to exist. *)
Record ui := mk_ui {
  progressBar_width : num;        (* style.width = `${n}%` *)
  progressText : ptext;
  toast : option json;            (* the last success toast *)
  readyFilename : json;
  mInput : json;
  mOutput : json;
  mTime : json;
  mReq : json;
  mTc : json;
  mNot : json;
  mArea : json;
  mLimit : json;
  limitDetail_hidden : bool;
  limitDetailList : list limit_item;
  readyCard_shown : bool
}.

(** The variables of the script that a run reads and writes: the two
    module-level ones, the locals of [generateViaStream] that outlive a
    chunk, the number of clock readings taken, and the page. *)
Record state := mk_state {
  lastCsvB64 : json;              (* null or the inline payload *)
  lastFilename : json;
  total : json;
  done : json;
  clock : nat;
  view : ui
}.

Definition with_view (s : state) (v : ui) : state :=
  mk_state (lastCsvB64 s) (lastFilename s) (total s) (done s) (clock s) v.

Definition with_counts (s : state) (tot dn : json) : state :=
  mk_state (lastCsvB64 s) (lastFilename s) tot dn (clock s) (view s).

Definition with_last (s : state) (b64 name : json) : state :=
  mk_state b64 name (total s) (done s) (clock s) (view s).

Definition tick (s : state) : state :=
  mk_state (lastCsvB64 s) (lastFilename s) (total s) (done s) (S (clock s))
           (view s).

(** [setProgress(pct, text)] *)
Definition setProgress (pct : num) (text : ptext) (v : ui) : ui :=
  let clamped := Num.max zero (Num.min (of_Z 100) pct) in
  mk_ui clamped
        (if ptext_truthy text then text else progressText v)
        (toast v) (readyFilename v) (mInput v) (mOutput v) (mTime v)
        (mReq v) (mTc v) (mNot v) (mArea v) (mLimit v)
        (limitDetail_hidden v) (limitDetailList v) (readyCard_shown v).

(** [showOk(message)] *)
Definition showOk (message : json) (v : ui) : ui :=
  mk_ui (progressBar_width v) (progressText v) (Some message)
        (readyFilename v) (mInput v) (mOutput v) (mTime v)
        (mReq v) (mTc v) (mNot v) (mArea v) (mLimit v)
        (limitDetail_hidden v) (limitDetailList v) (readyCard_shown v).

(** What a statement does to the control flow of [generateViaStream]. *)
Inductive exn :=
| TypeError (property : string)   (* a property read on null *)
| Error (message : json).         (* new Error(message) *)

Inductive signal :=
| Normal
| Returned
| Thrown (e : exn).

Definition TC_csv : json := JStr (lit "TC.csv").
Definition dash : json := JStr (lit "-").

(** The items of the limit detail, in order; reading a property of a
    null item throws and leaves the items rendered so far. *)
Fixpoint render_items (items : list json) (acc : list limit_item)
  : list limit_item * option exn :=
  match items with
  | [] => (acc, None)
  | JNull :: _ => (acc, Some (TypeError "requirement"))
  | item :: rest =>
      let req := nullish (get item "requirement") (JStr (lit "?")) in
      let omitted :=
        match get item "omitted_tcs" with
        | Some (JNum q) => Some q
        | _ => None
        end in
      render_items rest (acc ++ [LimitReached req omitted])
  end.

(** [applyDoneUI(data)] for a [data] that is not null. *)
Definition applyDoneUI (data : json) (v : ui) : ui * option exn :=
  let usage := get data "usage" in
  let stats := or_else (get data "stats") (JObj []) in
  let filename := or_else (get data "filename") TC_csv in
  let input := nullish (get_opt usage "input_tokens") (JInt 0) in
  let output := nullish (get_opt usage "output_tokens") (JInt 0) in
  let time := nullish (get data "elapsed") (JInt 0) in
  let req := nullish (get stats "requirements_total") (JInt 0) in
  let tc := nullish (get stats "test_cases_total") (JInt 0) in
  let nt := nullish (get stats "requirements_not_testable") (JInt 0) in
  let area :=
    nullish (nullish_opt (get stats "area_path") (get stats "project_id"))
            dash in
  let limit := nullish (get stats "requirements_limit_reached_total") (JInt 0) in
  let list :=
    match get stats "requirements_limit_reached_detail" with
    | Some (JArr items) => items
    | _ => []
    end in
  let fill hidden items shown :=
    mk_ui (progressBar_width v) (progressText v) (toast v)
          filename input output time req tc nt area limit
          hidden items shown in
  match list with
  | [] => (fill true [] true, None)
  | _ =>
      match render_items list [] with
      | (items, None) => (fill false items true, None)
      | (items, Some e) =>
          (fill (limitDetail_hidden v) items (readyCard_shown v), Some e)
      end
  end.

(* ------------------------------------------------------------------ *)
(** ** [generateViaStream]: the read loop                              *)
(* ------------------------------------------------------------------ *)

Section Consumer.

(** [JSON.parse(line)]; [None] when it throws. *)
Variable JSON_parse : jsstring -> option json.
(** [I18N[code]], the entry of the message table. *)
Variable I18N : json -> option json.
(** ToNumber on a string, an array or an object. *)
Variable coerce : json -> num.
(** The n-th reading of [performance.now()], in milliseconds. *)
Variable now : nat -> Q.

(** [t(code, fallback)] *)
Definition t (code fallback : option json) : json :=
  let other := or_else fallback (or_else code (JStr [])) in
  match code with
  | Some c =>
      if truthy c then
        match I18N c with
        | Some m => if truthy m then m else other
        | None => other
        end
      else other
  | None => other
  end.

(** [t("CODE", "fallback text")] *)
Definition msg (code : string) (fallback : jsstring) : json :=
  t (Some (JStr (lit code))) (Some (JStr fallback)).

Definition ellipsis : Z := 0x2026.

Definition UI_STARTING : json :=
  msg "UI_STARTING" (lit "Starting generation" ++ [ellipsis]).
Definition UI_PREPARING : json :=
  msg "UI_PREPARING" (lit "Preparing blocks" ++ [ellipsis]).
Definition UI_PROCESSING_REQ : json :=
  msg "UI_PROCESSING_REQ" (lit "Processing requirement").
Definition UI_COMPLETED : json :=
  msg "UI_COMPLETED" (lit "Completed. Ready to download.").
Definition OK_GENERATED : json :=
  msg "OK_GENERATED" (lit "Test cases generated successfully.").
Definition ERR_ENGINE : json :=
  msg "ERR_ENGINE" (lit "An error occurred while generating test cases.").
Definition UI_STREAM_ENDED : json :=
  msg "UI_STREAM_ENDED" (lit "The generation stream ended unexpectedly.").

(** ToNumber *)
Definition ToNumber (v : json) : num :=
  match v with
  | JNum q => Fin q
  | JNull => zero
  | JBool b => if b then of_Z 1 else zero
  | _ => coerce v
  end.

(** [total ? Math.round((done / total) * 100) : 0] *)
Definition percent (done total : json) : num :=
  if truthy total
  then Num.round (Num.mul (Num.div (ToNumber done) (ToNumber total)) (of_Z 100))
  else zero.

(** [done ? (elapsedSec / done) : 0] *)
Definition average (done : json) (elapsedSec : Q) : num :=
  if truthy done then Num.div (Fin elapsedSec) (ToNumber done) else zero.

(** [(avg && total) ? Math.max(0, Math.round(avg * (total - done))) : null] *)
Definition eta (done total : json) (elapsedSec : Q) : option num :=
  let avg := average done elapsedSec in
  if Num.truthy avg && truthy total
  then Some (Num.max zero
               (Num.round (Num.mul avg (Num.sub (ToNumber total) (ToNumber done)))))
  else None.

Definition startedAt : Q := now 0.

(** [(performance.now() - startedAt) / 1000] at the reading [k] *)
Definition elapsedSec (k : nat) : Q := ((now k - startedAt) / 1000)%Q.

(** The branch [evt.type === "meta"]. *)
Definition on_meta (s : state) (evt : json) : state :=
  let total' := or_else (get evt "total_blocks") (JInt 0) in
  let text := if truthy total' then Preparing UI_PREPARING total'
              else Plain UI_PREPARING in
  with_view (with_counts s total' (done s))
            (setProgress (of_Z 3) text (view s)).

(** The branch [evt.type === "progress"]. *)
Definition on_progress (s : state) (evt : json) : state :=
  let done' := or_else (get evt "done") (JInt 0) in
  let total' := or_else (get evt "total") (total s) in
  let pct := percent done' total' in
  let sec := elapsedSec (clock s) in
  let etaSec := eta done' total' sec in
  let req := nullish (get evt "req") (JStr (lit "?")) in
  let scenario :=
    if truthy_opt (get evt "scenario") then get evt "scenario" else None in
  let text := Processing UI_PROCESSING_REQ req scenario done' total' etaSec in
  with_view (tick (with_counts s total' done'))
            (setProgress pct text (view s)).

(** The branch [evt.type === "done"]: the page is updated, then the
    payload and the file name are kept for the download.  When
    [applyDoneUI] throws, the two variables keep their values. *)
Definition on_done (s : state) (evt : json) : state * signal :=
  let code := get evt "code" in
  let message :=
    if truthy_opt code
    then t code (get evt "message")
    else or_else (get evt "message") OK_GENERATED in
  let v1 := showOk message (setProgress (of_Z 100) (Plain UI_COMPLETED) (view s)) in
  match applyDoneUI evt v1 with
  | (v2, Some e) => (with_view s v2, Thrown e)
  | (v2, None) =>
      let filename := or_else (get evt "filename") TC_csv in
      let b64 :=
        if truthy_opt (get evt "csv_b64")
        then or_else (get evt "csv_b64") JNull
        else JNull in
      (with_last (with_view s v2) b64 filename, Returned)
  end.

(** The branch [evt.type === "error"]. *)
Definition on_error (evt : json) : exn :=
  Error (t (get evt "code")
           (Some (or_else (get evt "message") ERR_ENGINE))).

(** The body of the [for] loop once [JSON.parse] has returned [evt]. *)
Definition dispatch (s : state) (evt : json) : state * signal :=
  match evt with
  | JNull => (s, Thrown (TypeError "type"))
  | _ =>
      let type := get evt "type" in
      if is_str type "meta" then (on_meta s evt, Normal)
      else if is_str type "progress" then (on_progress s evt, Normal)
      else if is_str type "done" then on_done s evt
      else if is_str type "error" then (s, Thrown (on_error evt))
      else (s, Normal)
  end.

(** The outcome of a piece of the run: the parsed events that reached
    the dispatch, in order, the state, and how control left. *)
Definition outcome := (list json * state * signal)%type.

(** [for (const line of lines) { ... }] *)
Fixpoint for_lines (s : state) (lines : list jsstring) : outcome :=
  match lines with
  | [] => ([], s, Normal)
  | line :: rest =>
      if blank line then for_lines s rest
      else match JSON_parse line with
           | None => for_lines s rest
           | Some evt =>
               match dispatch s evt with
               | (s', Normal) =>
                   let '(events, s'', sg) := for_lines s' rest in
                   (evt :: events, s'', sg)
               | (s', sg) => ([evt], s', sg)
               end
           end
  end.

(** What follows the loop: the stream ended without a terminal event. *)
Definition stream_ended : exn := Error UI_STREAM_ENDED.

(** [while (true) { ... }] over the chunks [reader.read()] delivers
    before it reports the end of the body. *)
Fixpoint read_loop (s : state) (buffer : jsstring)
         (decoder : Utf8.TextDecoder) (chunks : list (list byte)) : outcome :=
  match chunks with
  | [] => ([], s, Thrown stream_ended)
  | value :: more =>
      let (decoder', text) := Utf8.decode decoder value in
      let (lines, buffer') := pop (split_nl (buffer ++ text)) in
      match for_lines s lines with
      | (events, s', Normal) =>
          let '(events', s'', sg) := read_loop s' buffer' decoder' more in
          (events ++ events', s'', sg)
      | r => r
      end
  end.

(** The state in which the loop is entered: fresh counters, the clock
    read once, [setProgress(2, ...)]. *)
Definition start (page : state) : state :=
  mk_state (lastCsvB64 page) (lastFilename page) (JInt 0) (JInt 0) 1
           (setProgress (of_Z 2) (Plain UI_STARTING) (view page)).

(** [generateViaStream] from [resp.body.getReader()] on, for a response
    that is ok and has a readable body. *)
Definition generateViaStream (page : state) (chunks : list (list byte))
  : outcome :=
  read_loop (start page) [] Utf8.create chunks.

(** How an outcome is continued by the rest of the run. *)
Definition and_then (r : outcome) (k : state -> outcome) : outcome :=
  match r with
  | (events, s, Normal) =>
      let '(events', s', sg) := k s in (events ++ events', s', sg)
  | _ => r
  end.

(** The end of the stream seen as the last step of the run. *)
Definition finish (r : outcome) : outcome :=
  and_then r (fun s => ([], s, Thrown stream_ended)).

(** The complete lines of a text: every segment but the last. *)
Definition complete_lines (text : jsstring) : list jsstring :=
  fst (pop (split_nl text)).

(** The text decoded from all the chunks of a body. *)
Definition decoded (chunks : list (list byte)) : jsstring :=
  snd (Utf8.decode Utf8.create (List.concat chunks)).

End Consumer.

(** A property that is undefined or null. *)
Definition absent (a : option json) : Prop := a = None \/ a = Some JNull.

(** The discriminant says [done] or [error]. *)
Definition terminal (evt : json) : bool :=
  is_str (get evt "type") "done" || is_str (get evt "type") "error".

(** The entries [applyDoneUI] renders for a [done] event. *)
Definition detail_items (evt : json) : list json :=
  match get (or_else (get evt "stats") (JObj [])) "requirements_limit_reached_detail" with
  | Some (JArr items) => items
  | _ => []
  end.

Definition is_null (v : json) : bool :=
  match v with JNull => true | _ => false end.

(** A done event with no usage, no elapsed time, no statistics and no
    file name: each of these properties, or each of their fields, is
    undefined or null. *)
Definition bare_done (evt : json) : Prop :=
  let usage := get evt "usage" in
  let stats := or_else (get evt "stats") (JObj []) in
  absent (get_opt usage "input_tokens")
  /\ absent (get_opt usage "output_tokens")
  /\ absent (get evt "elapsed")
  /\ absent (get stats "requirements_total")
  /\ absent (get stats "test_cases_total")
  /\ absent (get stats "requirements_not_testable")
  /\ absent (get stats "requirements_limit_reached_total")
  /\ absent (get stats "area_path")
  /\ absent (get stats "project_id")
  /\ absent (get stats "requirements_limit_reached_detail")
  /\ absent (get evt "filename").


(** The estimate in the words of the specification:
    [max(0, round(avg * max(0, total - done)))] with
    [avg = elapsedSeconds / done]. *)
Definition eta_spec (d t : Z) (e : Q) : Z :=
  Z.max 0 (Qround_half_up (e / inject_Z d * inject_Z (Z.max 0 (t - d)))).


(* ------------------------------------------------------------------ *)
(** ** The download button                                             *)
(* ------------------------------------------------------------------ *)

Definition QUOTE : Z := 34.

(** A pattern character against a subject character under the [i] flag:
    a lower-case ASCII letter of the pattern also matches its capital. *)
Definition ci_match (p c : Z) : bool :=
  (c =? p) || ((97 <=? p) && (p <=? 122) && (c =? p - 32)).

(** The subject after the pattern, when the subject starts with it. *)
Fixpoint ci_prefix (pat s : jsstring) : option jsstring :=
  match pat, s with
  | [], _ => Some s
  | p :: pat', c :: s' => if ci_match p c then ci_prefix pat' s' else None
  | _ :: _, [] => None
  end.

(** The longest prefix free of quotes, and what follows it. *)
Fixpoint span_unquoted (s : jsstring) : jsstring * jsstring :=
  match s with
  | [] => ([], [])
  | c :: s' =>
      if c =? QUOTE then ([], s)
      else let (v, rest) := span_unquoted s' in (c :: v, rest)
  end.

(** The pattern of [downloadCsvNoReload], anchored at the head of [s]:
    the word filename, an equals sign, a quote, one or more characters
    that are not quotes (group 1), a quote; letters in either case. *)
Definition match_here (s : jsstring) : option jsstring :=
  match ci_prefix (lit "filename=" ++ [QUOTE]) s with
  | Some rest =>
      match span_unquoted rest with
      | ((_ :: _) as v, _ :: _) => Some v
      | _ => None
      end
  | None => None
  end.

(** [cd.match(...)] with that pattern: group 1 of the leftmost match. *)
Fixpoint match_filename (cd : jsstring) : option jsstring :=
  match match_here cd with
  | Some v => Some v
  | None =>
      match cd with
      | [] => None
      | _ :: cd' => match_filename cd'
      end
  end.

(** The pattern has a match in [cd] whose group 1 is [v]: somewhere in
    [cd] stand the word filename in any mix of cases, an equals sign and
    a quote, then [v], not empty and free of quotes, then a quote. *)
Definition pattern_occurs (cd v : jsstring) : Prop :=
  exists pre head post,
    cd = pre ++ head ++ v ++ QUOTE :: post
    /\ ci_prefix (lit "filename=" ++ [QUOTE]) head = Some []
    /\ v <> []
    /\ ~ In QUOTE v.

(** The part of a response the script reads. *)
Record response := mk_response {
  ok : bool;
  body : list byte;                          (* resp.blob() *)
  Content_Disposition : option jsstring      (* resp.headers.get(...) *)
}.

(** A call of the runtime that returns or throws an error with a
    message. *)
Inductive attempt (A : Type) :=
| Success (a : A)
| Failure (message : json).
Arguments Success {A} a.
Arguments Failure {A} message.

(** What a click on the button does, in order. *)
Inductive action :=
| SetDisabled (b : bool)                     (* downloadBtn.disabled = b *)
| Request (url : jsstring)                   (* fetch(url, { method: GET }) *)
| SaveFile (content : list byte) (filename : json)   (* a.download, a.click() *)
| ToastOk (message : json)                   (* showOk *)
| ModalError (message : json).               (* showError *)

Section Download.

Variable I18N : json -> option json.
(** [atob], followed by the copy of its characters into a byte array. *)
Variable atob : json -> attempt (list byte).
(** [fetch(url, ...)]: the response, or a rejection. *)
Variable fetch : jsstring -> attempt response.

Definition UI_DOWNLOAD_FAILED : json :=
  msg I18N "UI_DOWNLOAD_FAILED"
      (lit "Download failed. Please generate test cases again.").
Definition UI_DOWNLOAD_STARTED : json :=
  msg I18N "UI_DOWNLOAD_STARTED" (lit "Download started.").
Definition UI_DOWNLOAD_URL_MISSING : json :=
  msg I18N "UI_DOWNLOAD_URL_MISSING" (lit "Download URL is not configured.").

(** [triggerDownload(blob, filename)] *)
Definition triggerDownload (content : list byte) (filename : json) : action :=
  SaveFile content (or_else (Some filename) TC_csv).

(** [base64ToUint8Array(b64)] *)
Definition base64ToUint8Array (b64 : json) : attempt (list byte) := atob b64.

(** [downloadCsvNoReload(downloadUrl)]: what it did and, when it threw,
    the message of the error. *)
Definition downloadCsvNoReload (downloadUrl : jsstring)
  : list action * option json :=
  match fetch downloadUrl with
  | Failure m => ([Request downloadUrl], Some m)
  | Success resp =>
      if negb (ok resp) then ([Request downloadUrl], Some UI_DOWNLOAD_FAILED)
      else
        let cd := match Content_Disposition resp with
                  | Some h => h
                  | None => []
                  end in
        let filename := match match_filename cd with
                        | Some v => JStr v
                        | None => TC_csv
                        end in
        ([Request downloadUrl; triggerDownload (body resp) filename], None)
  end.

(** The [catch] clause: [showError(err?.message || t(...))]. *)
Definition on_catch (message : json) : action :=
  ModalError (or_else (Some message) UI_DOWNLOAD_FAILED).

(** The click handler of the download button.  [downloadUrl] is
    [form.dataset.downloadUrl]. *)
Definition download (downloadUrl : option jsstring) (s : state) : list action :=
  [SetDisabled true] ++
  (if truthy (lastCsvB64 s) then
     match base64ToUint8Array (lastCsvB64 s) with
     | Success bytes =>
         [triggerDownload bytes (lastFilename s); ToastOk UI_DOWNLOAD_STARTED]
     | Failure m => [on_catch m]
     end
   else
     match downloadUrl with
     | Some ((_ :: _) as url) =>
         match downloadCsvNoReload url with
         | (done, None) => done ++ [ToastOk UI_DOWNLOAD_STARTED]
         | (done, Some m) => done ++ [on_catch m]
         end
     | _ => [ModalError UI_DOWNLOAD_URL_MISSING]
     end) ++
  [SetDisabled false].

(** The number of network requests among the actions. *)
Definition requests (l : list action) : nat :=
  List.length (filter (fun a => match a with Request _ => true | _ => false end) l).

(** The files saved, in order. *)
Definition saved (l : list action) : list (list byte * json) :=
  flat_map (fun a => match a with SaveFile c f => [(c, f)] | _ => [] end) l.

End Download.

(* ------------------------------------------------------------------ *)
(** ** Two sentences of the specification, as they are worded          *)
(* ------------------------------------------------------------------ *)


(** A click without an inline payload issues a single retrieval
    request. *)
Definition one_request_without_payload
           (I18N : json -> option json) (atob : json -> attempt (list byte))
           (fetch : jsstring -> attempt response)
           (downloadUrl : option jsstring) (s : state) : Prop :=
  truthy (lastCsvB64 s) = false ->
  requests (download I18N atob fetch downloadUrl s) = 1%nat.

(* ------------------------------------------------------------------ *)
(** ** Sample data for the examples                                    *)
(* ------------------------------------------------------------------ *)

Module Sample.

Local Open Scope string_scope.

(** An object literal with ASCII keys. *)
Definition obj (fields : list (string * json)) : json :=
  JObj (map (fun p => (lit (fst p), snd p)) fields).

Definition str (s : string) : json := JStr (lit s).

(** A parser given by a finite table of lines; any other line is a
    syntax error. *)
Fixpoint table_parse (table : list (string * json)) (line : jsstring)
  : option json :=
  match table with
  | [] => None
  | (text, v) :: table' =>
      if str_eqb (lit text) line then Some v else table_parse table' line
  end.

Definition meta3 : json := obj [("type", str "meta"); ("total_blocks", JInt 3)].
Definition progress13 : json :=
  obj [("type", str "progress"); ("done", JInt 1); ("total", JInt 3);
       ("req", str "RF-1")].
Definition progress10 : json :=
  obj [("type", str "progress"); ("done", JInt 1); ("total", JInt 0)].
Definition progress_no_done : json :=
  obj [("type", str "progress"); ("total", JInt 0)].
Definition meta_no_total : json := obj [("type", str "meta")].
Definition done_bare : json := obj [("type", str "done")].
Definition done_inline : json :=
  obj [("type", str "done"); ("filename", str "TC.csv"); ("csv_b64", str "QUI=")].
Definition done_labels : json :=
  obj [("type", str "done");
       ("stats", obj [("area_path", str "AREA"); ("project_id", str "PRJ")])].
Definition done_project : json :=
  obj [("type", str "done"); ("stats", obj [("project_id", str "PRJ")])].
Definition error_engine : json :=
  obj [("type", str "error"); ("code", str "ERR_ENGINE")].

(** The lines of the examples, written as short tags. *)
Definition parse : jsstring -> option json :=
  table_parse [("meta3", meta3); ("progress13", progress13);
               ("progress10", progress10); ("done", done_inline);
               ("error", error_engine); ("null", JNull)].

(** A parser for the one line made of the euro sign. *)
Definition parse_euro (line : jsstring) : option json :=
  if str_eqb line [0x20AC] then Some meta3 else None.

Definition no_table (code : json) : option json := None.
Definition no_coercion (v : json) : num := NaN.
(** A clock that advances two seconds between readings. *)
Definition clock2s (n : nat) : Q := inject_Z (Z.of_nat n * 2000).

Definition blank_ui : ui :=
  mk_ui zero (Plain JNull) None dash (JInt 0) (JInt 0) (JInt 0) (JInt 0)
        (JInt 0) (JInt 0) dash (JInt 0) true [] false.

(** The page after [resetUIForNewRun]. *)
Definition fresh_page : state :=
  mk_state JNull TC_csv (JInt 0) (JInt 0) 0 blank_ui.

Definition bytes (s : string) : list byte := list_byte_of_string s.
Definition newline : list byte := [x0a].

Definition run : list (list byte) -> list json * state * signal :=
  generateViaStream parse no_table no_coercion clock2s fresh_page.

(** [atob] on the one payload of the examples. *)
Definition atob (b64 : json) : attempt (list byte) :=
  match b64 with
  | JStr s => if str_eqb s (lit "QUI=") then Success [x41; x42]
              else Failure (str "InvalidCharacterError")
  | _ => Failure (str "InvalidCharacterError")
  end.

Definition csv_response (header : option jsstring) : response :=
  mk_response true [x61; x2c; x62] header.

Definition server (header : option jsstring) (url : jsstring)
  : attempt response :=
  Success (csv_response header).

(** attachment; filename=[QUOTE]report.csv[QUOTE] *)
Definition attachment : jsstring :=
  (lit "attachment; filename=" ++ [QUOTE] ++ lit "report.csv" ++ [QUOTE])%list.

Definition download_url : jsstring := lit "/tcgen/download/".

(** The page after a run that ended with [done_inline]. *)
Definition page_with_payload : state :=
  mk_state (str "QUI=") TC_csv (JInt 0) (JInt 0) 0 blank_ui.

End Sample.

(* ------------------------------------------------------------------ *)
(** ** More of the script: helpers, handlers and what they are made of *)
(* ------------------------------------------------------------------ *)

(** The lines of [lines], each followed by a newline: what [split]
    and [pop] took apart. *)
Definition join_nl (lines : list jsstring) : jsstring :=
  flat_map (fun l => l ++ [LF]) lines.

(** The values of the lines that are not blank and on which
    [JSON.parse] returns, in the order of the lines. *)
Definition parsed (JSON_parse : jsstring -> option json)
           (lines : list jsstring) : list json :=
  flat_map (fun line =>
              if blank line then []
              else match JSON_parse line with
                   | Some evt => [evt]
                   | None => []
                   end) lines.

(** The discriminant is none of the four the loop knows. *)
Definition unknown_type (evt : json) : bool :=
  negb (is_str (get evt "type") "meta")
  && negb (is_str (get evt "type") "progress")
  && negb (is_str (get evt "type") "done")
  && negb (is_str (get evt "type") "error").

(** [s.trimStart()] *)
Fixpoint trimStart (s : jsstring) : jsstring :=
  match s with
  | [] => []
  | c :: s' => if is_space c then trimStart s' else s
  end.

(** [s.trimEnd()] *)
Definition trimEnd (s : jsstring) : jsstring := rev (trimStart (rev s)).

(** [s.trim()] *)
Definition trim (s : jsstring) : jsstring := trimEnd (trimStart s).

(** [getAssignedToOrNull()]; the argument is [assignedInput?.value] and
    [None] in the result is null. *)
Definition getAssignedToOrNull (value : option jsstring) : option jsstring :=
  let v := trim (match value with
                 | Some s => s
                 | None => []
                 end) in
  if str_empty v then None else Some v.



(** [s.startsWith(prefix)]: what follows the prefix, when it is one. *)
Fixpoint strip_prefix (prefix s : jsstring) : option jsstring :=
  match prefix, s with
  | [], _ => Some s
  | p :: prefix', c :: s' => if c =? p then strip_prefix prefix' s' else None
  | _ :: _, [] => None
  end.

(** [s.includes(needle)] *)
Fixpoint includes (needle s : jsstring) : bool :=
  match strip_prefix needle s with
  | Some _ => true
  | None =>
      match s with
      | [] => false
      | _ :: s' => includes needle s'
      end
  end.

(** [s.endsWith(suffix)] *)
Definition endsWith (suffix s : jsstring) : bool :=
  match strip_prefix (rev suffix) (rev s) with
  | Some _ => true
  | None => false
  end.

(** [s.split(sep)] for a separator that is not empty: the pieces between
    the occurrences of [sep] met from left to right.  [skip] counts the
    characters of a separator still to pass over and [piece] holds the
    current piece, last character first. *)
Fixpoint split_from (sep s : jsstring) (skip : nat) (piece : jsstring)
  : list jsstring :=
  match s with
  | [] => [rev piece]
  | c :: s' =>
      match skip with
      | S k => split_from sep s' k piece
      | O =>
          match strip_prefix sep s with
          | Some _ => rev piece :: split_from sep s' (List.length sep - 1) []
          | None => split_from sep s' 0 (c :: piece)
          end
      end
  end.

Definition split_on (sep s : jsstring) : list jsstring :=
  split_from sep s 0 [].

Definition SEMICOLON : Z := 59.

(** [s.split(";").shift()]: what stands before the first semicolon. *)
Fixpoint before_semicolon (s : jsstring) : jsstring :=
  match s with
  | [] => []
  | c :: s' => if c =? SEMICOLON then [] else c :: before_semicolon s'
  end.

(** [getCookie(name)] on the text of [document.cookie]. *)
Definition getCookie (cookie : jsstring) (name : jsstring) : jsstring :=
  let value := lit "; " ++ cookie in
  let parts := split_on (lit "; " ++ name ++ lit "=") value in
  match parts with
  | [_; part] => before_semicolon part
  | _ => []
  end.

(** [document.cookie] for a jar of cookies: name=value pairs joined by
    a semicolon and a space. *)
Fixpoint cookie_text (jar : list (jsstring * jsstring)) : jsstring :=
  match jar with
  | [] => []
  | [(n, v)] => n ++ lit "=" ++ v
  | (n, v) :: jar' => n ++ lit "=" ++ v ++ lit "; " ++ cookie_text jar'
  end.

(* ------------------------------------------------------------------ *)
(** ** The page around a run                                           *)
(* ------------------------------------------------------------------ *)

(** A [File]: its name and its size in bytes. *)
Record file := mk_file {
  file_name : jsstring;
  file_size : Z
}.

(** The text of the error modal. *)
Inductive modal_text :=
| Message (m : json)                       (* showError(m) *)
| MessageOf (e : exn) (fallback : json).   (* showError(err?.message || fallback) *)

(** The page: the part a run writes, the file picked, and the elements
    the handlers drive.  [fileName] and [fileSize] hold the label of
    the table, the name and the size in bytes that the two template
    literals of [setFileSelectedUI] are made of. *)
Record page := mk_page {
  run : state;
  selectedFile : option file;
  fileInput_value : option file;             (* fileInput.files[0] *)
  fileHint : json;
  filePill_shown : bool;
  fileName : option (json * jsstring);
  fileSize : option (json * Z);
  overlay_shown : bool;
  submit_disabled : bool;
  assigned_invalid : bool;                   (* the class is-invalid *)
  modal : option modal_text                  (* the error modal, while open *)
}.

Definition with_run (p : page) (s : state) : page :=
  mk_page s (selectedFile p) (fileInput_value p) (fileHint p) (filePill_shown p)
          (fileName p) (fileSize p) (overlay_shown p) (submit_disabled p)
          (assigned_invalid p) (modal p).

Definition with_modal (p : page) (m : option modal_text) : page :=
  mk_page (run p) (selectedFile p) (fileInput_value p) (fileHint p)
          (filePill_shown p) (fileName p) (fileSize p) (overlay_shown p)
          (submit_disabled p) (assigned_invalid p) m.

(** [setOverlay(on)] together with [submitBtn.disabled = off]. *)
Definition with_busy (p : page) (overlay disabled : bool) : page :=
  mk_page (run p) (selectedFile p) (fileInput_value p) (fileHint p)
          (filePill_shown p) (fileName p) (fileSize p) overlay disabled
          (assigned_invalid p) (modal p).

Definition with_invalid (p : page) (b : bool) : page :=
  mk_page (run p) (selectedFile p) (fileInput_value p) (fileHint p)
          (filePill_shown p) (fileName p) (fileSize p) (overlay_shown p)
          (submit_disabled p) b (modal p).

Definition zero_text : json := JStr (lit "0").

(** [resetMetrics()] *)
Definition resetMetrics (v : ui) : ui :=
  mk_ui (progressBar_width v) (progressText v) (toast v) (readyFilename v)
        zero_text zero_text zero_text zero_text zero_text zero_text
        dash zero_text true [] (readyCard_shown v).

(** [hide(readyCard)] and [Swal.close()] as far as the success toast
    goes. *)
Definition hide_ready_close_toast (v : ui) : ui :=
  mk_ui (progressBar_width v) (progressText v) None (readyFilename v)
        (mInput v) (mOutput v) (mTime v) (mReq v) (mTc v) (mNot v)
        (mArea v) (mLimit v) (limitDetail_hidden v) (limitDetailList v) false.

(** [resetUIForNewRun()]: the ready card is hidden, the open popup is
    closed, the payload and the file name of the last run are dropped,
    the metrics are reset. *)
Definition resetUIForNewRun (p : page) : page :=
  let s := run p in
  with_modal
    (with_run p
       (mk_state JNull TC_csv (total s) (done s) (clock s)
                 (resetMetrics (hide_ready_close_toast (view s)))))
    None.

(** The part of the response to the POST that [generateViaStream]
    reads. *)
Record stream_response := mk_stream_response {
  sr_ok : bool;
  sr_content_type : option jsstring;         (* headers.get(content-type) *)
  sr_json : attempt json;                    (* resp.json() *)
  sr_text : attempt jsstring;                (* resp.text() *)
  sr_body : option (list (list byte))        (* the chunks of resp.body, when
                                                there is a body with getReader *)
}.

(** What the POST carries of the form: the document, the assignee and
    the CSRF header. *)
Record request := mk_request {
  req_url : jsstring;
  req_document : file;
  req_assigned_to : jsstring;
  req_csrf : jsstring
}.

Section Handlers.

Variable JSON_parse : jsstring -> option json.
Variable I18N : json -> option json.
Variable coerce : json -> num.
Variable now : nat -> Q.
(** [s.toLowerCase()] *)
Variable toLowerCase : jsstring -> jsstring.
(** [fetch(streamUrl, { method: POST, ... })]: the response, or the
    message of the error it rejects with. *)
Variable post : request -> attempt stream_response.

Definition UI_REQUEST_FAILED : json :=
  msg I18N "UI_REQUEST_FAILED" (lit "Request failed. Please try again.").
Definition UI_STREAM_UNSUPPORTED : json :=
  msg I18N "UI_STREAM_UNSUPPORTED"
      (lit "Your browser does not support streaming responses.").
Definition UI_GENERATE_URL_MISSING : json :=
  msg I18N "UI_GENERATE_URL_MISSING" (lit "Generate URL is not configured.").
Definition UI_SELECT_FILE : json :=
  msg I18N "UI_SELECT_FILE"
      (lit "Please select a file before generating test cases.").
Definition UI_SELECT_ASSIGNED : json :=
  msg I18N "UI_SELECT_ASSIGNED"
      (lit "Please fill Assigned To with the exact Azure DevOps display name.").
Definition UI_DONT_CLOSE : json :=
  msg I18N "UI_DONT_CLOSE"
      (lit "Please do not close this window. This process may take a few minutes.").
Definition UI_UNEXPECTED_ERROR : json :=
  msg I18N "UI_UNEXPECTED_ERROR"
      (lit "An unexpected error occurred. Please try again.").
Definition UI_UNSUPPORTED_FILE : json :=
  msg I18N "UI_UNSUPPORTED_FILE"
      (lit "Unsupported file type. Allowed: .pdf, .docx").
Definition UI_NO_FILE : json := msg I18N "UI_NO_FILE" (lit "No file selected").
Definition UI_FILE_UPLOADED : json :=
  msg I18N "UI_FILE_UPLOADED" (lit "File uploaded").
Definition UI_SIZE : json := msg I18N "UI_SIZE" (lit "Size").

(** The error thrown for a response that is not ok. *)
Definition response_error (resp : stream_response) : exn :=
  let ct := toLowerCase (match sr_content_type resp with
                         | Some h => h
                         | None => []
                         end) in
  if includes (lit "application/json") ct then
    let j := match sr_json resp with
             | Success v => v
             | Failure _ => JObj []
             end in
    match j with
    | JNull => TypeError "code"
    | _ =>
        Error (if truthy_opt (get j "code")
               then t I18N (get j "code") (get j "message")
               else or_else (get j "message") UI_REQUEST_FAILED)
    end
  else
    let ttxt := match sr_text resp with
                | Success s => s
                | Failure _ => []
                end in
    Error (or_else (Some (JStr ttxt)) UI_REQUEST_FAILED).

(** [generateViaStream(streamUrl, formData, csrf)] as a whole: the POST,
    the response that is not ok, the missing body, then the read loop.
    A rejected [fetch] is an error with the message of the rejection. *)
Definition generateViaStream_fetch (req : request) (s : state) : outcome :=
  match post req with
  | Failure m => ([], s, Thrown (Error m))
  | Success resp =>
      if negb (sr_ok resp) then ([], s, Thrown (response_error resp))
      else
        match sr_body resp with
        | None => ([], s, Thrown (Error UI_STREAM_UNSUPPORTED))
        | Some chunks => generateViaStream JSON_parse I18N coerce now s chunks
        end
  end.

Definition ALLOWED_EXTS : list jsstring := [lit ".pdf"; lit ".docx"].

(** [isAllowedFile(file)] *)
Definition isAllowedFile (f : option file) : bool :=
  let name := toLowerCase (match f with
                           | Some x => file_name x
                           | None => []
                           end) in
  existsb (fun ext => endsWith ext name) ALLOWED_EXTS.

(** [setFileSelectedUI(file)] *)
Definition setFileSelectedUI (f : option file) (p : page) : page :=
  match f with
  | None =>
      mk_page (run p) (selectedFile p) (fileInput_value p) UI_NO_FILE false
              (fileName p) (fileSize p) (overlay_shown p) (submit_disabled p)
              (assigned_invalid p) (modal p)
  | Some x =>
      mk_page (run p) (selectedFile p) (fileInput_value p)
              (JStr (file_name x)) true
              (Some (UI_FILE_UPLOADED, file_name x))
              (Some (UI_SIZE, file_size x))
              (overlay_shown p) (submit_disabled p) (assigned_invalid p)
              (modal p)
  end.

Definition with_selection (p : page) (selected input : option file) : page :=
  mk_page (run p) selected input (fileHint p) (filePill_shown p)
          (fileName p) (fileSize p) (overlay_shown p) (submit_disabled p)
          (assigned_invalid p) (modal p).

(** [clearFileSelection()] *)
Definition clearFileSelection (p : page) : page :=
  resetUIForNewRun (setFileSelectedUI None (with_selection p None None)).

(** [selectFile(file)] up to the moment it returns.  For a file that is
    not allowed the modal is opened and nothing else changes;
    [clearFileSelection] runs when that modal is closed. *)
Definition selectFile (f : option file) (p : page) : page :=
  match f with
  | Some _ =>
      if negb (isAllowedFile f)
      then with_modal p (Some (Message UI_UNSUPPORTED_FILE))
      else resetUIForNewRun
             (setFileSelectedUI f (with_selection p f (fileInput_value p)))
  | None =>
      resetUIForNewRun
        (setFileSelectedUI None (with_selection p None (fileInput_value p)))
  end.

(** [selectFile(file)] followed, for a file that is not allowed, by the
    closing of the modal. *)
Definition selectFile_settled (f : option file) (p : page) : page :=
  match f with
  | Some _ =>
      if negb (isAllowedFile f) then clearFileSelection (selectFile f p)
      else selectFile f p
  | None => selectFile f p
  end.

(** The change of the file input: [fileInput.files] holds the files
    picked. *)
Definition on_change (files : list file) (p : page) : page :=
  selectFile_settled (hd_error files)
                     (with_selection p (selectedFile p) (hd_error files)).

(** The drop of files on the uploader: the file input is not touched. *)
Definition on_drop (files : list file) (p : page) : page :=
  match files with
  | [] => p
  | f :: _ => selectFile_settled (Some f) p
  end.

(** The submit handler.  [streamUrl] is [form.dataset.generateStreamUrl],
    [cookie] is [document.cookie], [assigned] is the value of the
    assignee field.  The result is the page when the handler is over and
    the requests it sent. *)
Definition submit (streamUrl : option jsstring) (cookie : jsstring)
           (assigned : option jsstring) (p : page) : page * list request :=
  match streamUrl with
  | Some ((_ :: _) as url) =>
      match selectedFile p with
      | None => (with_modal p (Some (Message UI_SELECT_FILE)), [])
      | Some f =>
          match getAssignedToOrNull assigned with
          | None =>
              (with_modal (with_invalid p true)
                          (Some (Message UI_SELECT_ASSIGNED)), [])
          | Some assignedTo =>
              let p1 := resetUIForNewRun p in
              let p2 :=
                with_busy
                  (with_run p1
                     (with_view (run p1)
                        (setProgress (of_Z 0) (Plain UI_DONT_CLOSE)
                                     (view (run p1)))))
                  true true in
              let req := mk_request url f assignedTo
                                    (getCookie cookie (lit "csrftoken")) in
              let '(_, s, sg) := generateViaStream_fetch req (run p2) in
              let p3 := with_run p2 s in
              let p4 := match sg with
                        | Thrown e =>
                            with_modal p3 (Some (MessageOf e UI_UNEXPECTED_ERROR))
                        | _ => p3
                        end in
              (with_busy p4 false false, [req])
          end
      end
  | _ => (with_modal p (Some (Message UI_GENERATE_URL_MISSING)), [])
  end.

End Handlers.

(** What a visitor does on the page. *)
Inductive event :=
| Change (files : list file)                   (* the file input changes *)
| Drop (files : list file)                     (* files are dropped *)
| ClearClick                                   (* the clear button *)
| SubmitForm (assigned : option jsstring).     (* the form is submitted *)

Section Session.

Variable JSON_parse : jsstring -> option json.
Variable I18N : json -> option json.
Variable coerce : json -> num.
Variable now : nat -> Q.
Variable toLowerCase : jsstring -> jsstring.
Variable post : request -> attempt stream_response.
(** [form.dataset.generateStreamUrl] and [document.cookie] *)
Variable streamUrl : option jsstring.
Variable cookie : jsstring.

(** One event, each handler run to its end: the page after it and the
    requests it sent. *)
Definition handle (e : event) (p : page) : page * list request :=
  match e with
  | Change files => (on_change I18N toLowerCase files p, [])
  | Drop files => (on_drop I18N toLowerCase files p, [])
  | ClearClick => (clearFileSelection I18N p, [])
  | SubmitForm assigned =>
      submit JSON_parse I18N coerce now toLowerCase post streamUrl cookie
             assigned p
  end.

(** A sequence of events: the page at the end and all the requests
    sent, in order. *)
Fixpoint session (events : list event) (p : page) : page * list request :=
  match events with
  | [] => (p, [])
  | e :: rest =>
      let (p1, sent1) := handle e p in
      let (p2, sent2) := session rest p1 in
      (p2, sent1 ++ sent2)
  end.

End Session.

(** One list item of the limit detail for an entry that is not null. *)
Definition render_item (item : json) : limit_item :=
  LimitReached (nullish (get item "requirement") (JStr (lit "?")))
               (match get item "omitted_tcs" with
                | Some (JNum q) => Some q
                | _ => None
                end).

(** No file is selected, or the selected file is an allowed one. *)
Definition selection_allowed (toLowerCase : jsstring -> jsstring) (p : page)
  : Prop :=
  match selectedFile p with
  | None => True
  | Some f => isAllowedFile toLowerCase (Some f) = true
  end.

Definition EQUALS : Z := 61.

(** A jar as [document.cookie] can hold it: no semicolon and no equals
    sign in a name, no semicolon in a value. *)
Definition well_formed_jar (jar : list (jsstring * jsstring)) : Prop :=
  Forall (fun nv => ~ In SEMICOLON (fst nv) /\ ~ In EQUALS (fst nv)
                    /\ ~ In SEMICOLON (snd nv)) jar.

(** The cookies of the jar that bear the name. *)
Definition named (name : jsstring) (jar : list (jsstring * jsstring))
  : list (jsstring * jsstring) :=
  filter (fun nv => str_eqb (fst nv) name) jar.

(** One cookie as it stands in the text that [getCookie] splits. *)
Definition entry (nv : jsstring * jsstring) : jsstring :=
  lit "; " ++ fst nv ++ lit "=" ++ snd nv.

Definition entries (jar : list (jsstring * jsstring)) : jsstring :=
  flat_map entry jar.

(** The pieces of the split, cookie by cookie; [piece] is the current
    piece, last character first. *)
Fixpoint jar_pieces (name : jsstring) (jar : list (jsstring * jsstring))
         (piece : jsstring) : list jsstring :=
  match jar with
  | [] => [rev piece]
  | nv :: jar' =>
      if str_eqb (fst nv) name
      then rev piece :: jar_pieces name jar' (rev (snd nv))
      else jar_pieces name jar' (rev (entry nv) ++ piece)
  end.

(** The number of newlines of a text, and of newline bytes of a body. *)
Definition newlines (s : jsstring) : nat :=
  List.length (filter (Z.eqb LF) s).

Definition newline_bytes (bs : list byte) : nat :=
  List.length (filter (Byte.eqb x0a) bs).

(** What holds of the decoder between two bytes: while a sequence is
    open the next byte must be at least 0x80, and the bits gathered so
    far are not all zero, unless the sequence has just been opened by
    0xE0 or 0xF0, whose first continuation byte is bounded from below so
    that it brings bits of its own. *)
Definition open_sequence_ok (u : Utf8.utf8) : Prop :=
  Utf8.bytes_needed u = 0
  \/ (0x80 <= Utf8.lower_boundary u
      /\ (Utf8.code_point u <> 0
          \/ (Utf8.bytes_seen u = 0 /\ 2 <= Utf8.bytes_needed u
              /\ 0x80 < Utf8.lower_boundary u
              /\ Utf8.upper_boundary u <= 0xBF))).

(* ------------------------------------------------------------------ *)
(** ** More sample data                                                *)
(* ------------------------------------------------------------------ *)

Module MoreSample.

Import Sample.
Local Open Scope string_scope.

(** Lower case for the letters A to Z. *)
Definition lower_ascii (s : jsstring) : jsstring :=
  map (fun c => if ((65 <=? c) && (c <=? 90))%Z then (c + 32)%Z else c) s.

Definition report_pdf : file := mk_file (lit "Report.PDF") 2048.
Definition notes_txt : file := mk_file (lit "notes.txt") 10.

(** The page as the script leaves it when it is loaded. *)
Definition first_page : page :=
  mk_page fresh_page None None (UI_NO_FILE no_table) false None None
          false false false None.

Definition page_with_pdf : page :=
  selectFile_settled no_table lower_ascii (Some report_pdf) first_page.

Definition stream_url : jsstring := lit "/tcgen/stream/".

(** A body of three lines: meta, progress, done. *)
Definition good_body : list (list byte) :=
  [(bytes "meta3" ++ newline ++ bytes "progress13" ++ newline
    ++ bytes "done" ++ newline)%list].

(** A body that stops after its meta line. *)
Definition cut_body : list (list byte) :=
  [(bytes "meta3" ++ newline ++ bytes "prog")%list].

Definition answer (body : list (list byte)) (r : request)
  : attempt stream_response :=
  Success (mk_stream_response true (Some (lit "application/x-ndjson"))
                              (Failure (str "not json")) (Success [])
                              (Some body)).

(** A 400 with a JSON body that carries a code and a message. *)
Definition rejected : stream_response :=
  mk_stream_response false (Some (lit "Application/JSON; charset=utf-8"))
    (Success (obj [("code", str "ERR_NO_REQS"); ("message", str "no reqs")]))
    (Success []) None.

Definition reject (r : request) : attempt stream_response := Success rejected.

(** A message table with one entry. *)
Definition one_entry (code : json) : option json :=
  match code with
  | JStr s => if str_eqb s (lit "ERR_NO_REQS")
              then Some (str "No requirements were detected.")
              else None
  | _ => None
  end.

Definition jar : list (jsstring * jsstring) :=
  [(lit "sessionid", lit "abc"); (lit "csrftoken", lit "T0K3N");
   (lit "theme", lit "dark")].

Definition future_event : json := obj [("type", str "heartbeat")].

Definition parse_more : jsstring -> option json :=
  table_parse [("meta3", meta3); ("progress13", progress13);
               ("done", done_inline); ("error", error_engine);
               ("beat", future_event)].

Definition done_detail : json :=
  obj [("type", str "done");
       ("stats",
        obj [("requirements_limit_reached_detail",
              JArr [obj [("requirement", str "RF-1"); ("omitted_tcs", JInt 2)];
                    obj [("omitted_tcs", str "many")]])])].

End MoreSample.

(* ------------------------------------------------------------------ *)
(** ** Strings, lines and the decoder                                  *)
(* ------------------------------------------------------------------ *)

Lemma str_eqb_eq (a b : jsstring) : str_eqb a b = true <-> a = b.
Proof.
  revert b; induction a as [|x a IH]; intros [|y b]; simpl;
    try (split; [discriminate | discriminate]); try tauto.
  rewrite andb_true_iff, Z.eqb_eq, IH.
  split; [intros [-> ->]; reflexivity | intros E; inversion E; auto].
Qed.

Lemma str_eqb_refl (a : jsstring) : str_eqb a a = true.
Proof. apply str_eqb_eq; reflexivity. Qed.

Lemma is_str_true (v : option json) (text : string) :
  is_str v text = true -> v = Some (JStr (lit text)).
Proof.
  destruct v as [[]|]; simpl; try discriminate.
  intros E; apply str_eqb_eq in E; subst; reflexivity.
Qed.

Lemma split_nl_nonempty (s : jsstring) : split_nl s <> [].
Proof.
  destruct s as [|c s]; simpl; [discriminate|].
  destruct (c =? LF); [discriminate|].
  destruct (split_nl s); discriminate.
Qed.

(** Splitting a text that grows: the complete lines found so far stay,
    and the unfinished last segment is continued by what arrives. *)
Lemma split_nl_app (a b : jsstring) :
  split_nl (a ++ b) =
  removelast (split_nl a) ++ split_nl (last (split_nl a) [] ++ b).
Proof.
  induction a as [|c a IH]; simpl; [reflexivity|].
  destruct (c =? LF) eqn:E.
  - rewrite IH.
    destruct (split_nl a) as [|l ls] eqn:Ea; [now apply split_nl_nonempty in Ea|].
    reflexivity.
  - rewrite IH.
    destruct (split_nl a) as [|l ls] eqn:Ea; [now apply split_nl_nonempty in Ea|].
    destruct ls as [|l' ls'].
    + simpl. rewrite E.
      destruct (split_nl (l ++ b)) eqn:El; [now apply split_nl_nonempty in El|].
      reflexivity.
    + reflexivity.
Qed.

(** The segment kept in the buffer holds no newline. *)
Lemma last_split_nl (a : jsstring) :
  split_nl (last (split_nl a) []) = [last (split_nl a) []].
Proof.
  induction a as [|c a IH]; simpl; [reflexivity|].
  destruct (c =? LF) eqn:E.
  - destruct (split_nl a) eqn:Ea; [now apply split_nl_nonempty in Ea|].
    exact IH.
  - destruct (split_nl a) as [|l ls] eqn:Ea; [now apply split_nl_nonempty in Ea|].
    destruct ls as [|l' ls'].
    + simpl in *. rewrite E, IH. reflexivity.
    + exact IH.
Qed.

Lemma decode_app (d : Utf8.TextDecoder) (a b : list byte) :
  Utf8.decode d (a ++ b) =
  let (d1, out1) := Utf8.decode d a in
  let (d2, out2) := Utf8.decode d1 b in
  (d2, out1 ++ out2).
Proof.
  revert d; induction a as [|x a IH]; intros d; simpl.
  - destruct (Utf8.decode d b); reflexivity.
  - destruct (Utf8.decode_byte d x) as [d1 o1].
    rewrite IH.
    destruct (Utf8.decode d1 a) as [d2 o2].
    destruct (Utf8.decode d2 b) as [d3 o3].
    rewrite app_assoc; reflexivity.
Qed.

(* ------------------------------------------------------------------ *)
(** ** The loop over lines and the read loop                           *)
(* ------------------------------------------------------------------ *)

Section ConsumerFacts.

Variable JSON_parse : jsstring -> option json.
Variable I18N : json -> option json.
Variable coerce : json -> num.
Variable now : nat -> Q.

Lemma for_lines_app (s : state) (l1 l2 : list jsstring) :
  for_lines JSON_parse I18N coerce now s (l1 ++ l2) =
  and_then (for_lines JSON_parse I18N coerce now s l1)
           (fun s' => for_lines JSON_parse I18N coerce now s' l2).
Proof.
  revert s; induction l1 as [|line l1 IH]; intros s; simpl.
  - destruct (for_lines _ _ _ _ s l2) as [[ev s'] sg]; reflexivity.
  - destruct (blank line); [apply IH|].
    destruct (JSON_parse line) as [evt|]; [|apply IH].
    destruct (dispatch I18N coerce now s evt) as [s1 [| |e]]; try reflexivity.
    rewrite IH.
    destruct (for_lines _ _ _ _ s1 l1) as [[ev s2] [| |e]]; simpl; try reflexivity.
    destruct (for_lines _ _ _ _ s2 l2) as [[ev' s3] sg]; reflexivity.
Qed.

(** The read loop handles exactly the complete lines of the text decoded
    from all chunks together, whatever the chunking. *)
Lemma read_loop_lines (chunks : list (list byte)) :
  forall (s : state) (buffer : jsstring) (d : Utf8.TextDecoder),
    split_nl buffer = [buffer] ->
    read_loop JSON_parse I18N coerce now s buffer d chunks =
    finish I18N
      (for_lines JSON_parse I18N coerce now s
         (complete_lines (buffer ++ snd (Utf8.decode d (List.concat chunks))))).
Proof.
  induction chunks as [|value more IH]; intros s buffer d Hb.
  - simpl. rewrite app_nil_r. unfold complete_lines. rewrite Hb. reflexivity.
  - simpl List.concat. rewrite decode_app. simpl read_loop.
    destruct (Utf8.decode d value) as [d1 t1] eqn:E1.
    destruct (Utf8.decode d1 (List.concat more)) as [d2 t2] eqn:E2.
    unfold complete_lines, pop, fst, snd.
    rewrite app_assoc, (split_nl_app (buffer ++ t1) t2).
    rewrite removelast_app by apply split_nl_nonempty.
    rewrite for_lines_app.
    destruct (for_lines _ _ _ _ s (removelast (split_nl (buffer ++ t1))))
      as [[ev s1] [| |e]]; try reflexivity.
    rewrite IH by apply last_split_nl.
    rewrite E2. unfold complete_lines, pop, fst, snd, finish, and_then.
    destruct (for_lines _ _ _ _ s1 _) as [[ev' s2] [| |e']]; simpl;
      rewrite ?app_nil_r; reflexivity.
Qed.

Lemma generateViaStream_lines (page : state) (chunks : list (list byte)) :
  generateViaStream JSON_parse I18N coerce now page chunks =
  finish I18N
    (for_lines JSON_parse I18N coerce now (start I18N page)
       (complete_lines (decoded chunks))).
Proof.
  unfold generateViaStream. rewrite read_loop_lines by reflexivity.
  reflexivity.
Qed.

(** C1. Chunk-boundary invariance: whatever the partition of the bytes
    of a payload into chunks, also one that cuts a multi-byte character,
    the run dispatches the same parsed events in the same order, ends in
    the same state and leaves the loop the same way as the run that
    receives the payload as one chunk (with the same clock readings in
    both runs). *)
Theorem chunk_boundary_invariance (page : state) (chunks : list (list byte)) :
  generateViaStream JSON_parse I18N coerce now page chunks =
  generateViaStream JSON_parse I18N coerce now page [List.concat chunks].
Proof.
  rewrite !generateViaStream_lines. unfold decoded. simpl List.concat.
  rewrite app_nil_r. reflexivity.
Qed.

End ConsumerFacts.

(* ------------------------------------------------------------------ *)
(** ** Arithmetic of the progress tracker                              *)
(* ------------------------------------------------------------------ *)







Section TrackerFacts.

Variable coerce : json -> num.




End TrackerFacts.

(* ------------------------------------------------------------------ *)
(** ** Dispatch of one event                                           *)
(* ------------------------------------------------------------------ *)

Section DispatchFacts.

Variable I18N : json -> option json.
Variable coerce : json -> num.
Variable now : nat -> Q.

Lemma dispatch_meta (s : state) (evt : json) :
  is_str (get evt "type") "meta" = true ->
  dispatch I18N coerce now s evt = (on_meta I18N s evt, Normal).
Proof.
  intros H. destruct evt; try discriminate H.
  unfold dispatch. rewrite H. reflexivity.
Qed.

Lemma dispatch_progress (s : state) (evt : json) :
  is_str (get evt "type") "progress" = true ->
  dispatch I18N coerce now s evt = (on_progress I18N coerce now s evt, Normal).
Proof.
  intros H. pose proof (is_str_true _ _ H) as E.
  destruct evt; try discriminate H.
  unfold dispatch. rewrite E. reflexivity.
Qed.

Lemma dispatch_done (s : state) (evt : json) :
  is_str (get evt "type") "done" = true ->
  dispatch I18N coerce now s evt = on_done I18N s evt.
Proof.
  intros H. pose proof (is_str_true _ _ H) as E.
  destruct evt; try discriminate H.
  unfold dispatch. rewrite E. reflexivity.
Qed.


Lemma on_progress_done (s : state) (evt : json) :
  done (on_progress I18N coerce now s evt) = or_else (get evt "done") (JInt 0).
Proof. reflexivity. Qed.

Lemma on_progress_total (s : state) (evt : json) :
  total (on_progress I18N coerce now s evt) = or_else (get evt "total") (total s).
Proof. reflexivity. Qed.






(** C10. Zero counts as absent: in a progress event a total that is 0
    (or otherwise falsy, or missing) leaves the tracked total as it was,
    and a done that is missing, 0 or otherwise falsy makes the tracked
    done 0; in a meta event a falsy or missing total_blocks makes the
    tracked total 0. *)
Theorem zero_counts_as_absent (s : state) (evt : json) :
  (truthy_opt (Some (JInt 0)) = false /\ truthy_opt None = false)
  /\ (is_str (get evt "type") "progress" = true ->
      (truthy_opt (get evt "total") = false ->
       total (fst (dispatch I18N coerce now s evt)) = total s)
      /\ (truthy_opt (get evt "done") = false ->
          done (fst (dispatch I18N coerce now s evt)) = JInt 0))
  /\ (is_str (get evt "type") "meta" = true ->
      truthy_opt (get evt "total_blocks") = false ->
      total (fst (dispatch I18N coerce now s evt)) = JInt 0).
Proof.
  split; [split; reflexivity|]. split.
  - intros Hty. rewrite (dispatch_progress s evt Hty). unfold fst.
    rewrite on_progress_done, on_progress_total. split.
    + destruct (get evt "total") as [v|]; simpl; [|reflexivity].
      intros ->. reflexivity.
    + destruct (get evt "done") as [v|]; simpl; [|reflexivity].
      intros ->. reflexivity.
  - intros Hty. rewrite (dispatch_meta s evt Hty). unfold fst.
    change (total (on_meta I18N s evt))
      with (or_else (get evt "total_blocks") (JInt 0)).
    destruct (get evt "total_blocks") as [v|]; simpl; [|reflexivity].
    intros ->. reflexivity.
Qed.

End DispatchFacts.

(* ------------------------------------------------------------------ *)
(** ** Lines that are skipped, streams that end, events that end a run *)
(* ------------------------------------------------------------------ *)

Section LineFacts.

Variable JSON_parse : jsstring -> option json.
Variable I18N : json -> option json.
Variable coerce : json -> num.
Variable now : nat -> Q.

Lemma for_lines_skip (s : state) (bad : jsstring) (rest : list jsstring) :
  JSON_parse bad = None ->
  for_lines JSON_parse I18N coerce now s (bad :: rest) =
  for_lines JSON_parse I18N coerce now s rest.
Proof. intros H; simpl. rewrite H. destruct (blank bad); reflexivity. Qed.

Lemma for_lines_event (s : state) (line : jsstring) (evt : json)
      (rest : list jsstring) :
  blank line = false -> JSON_parse line = Some evt ->
  for_lines JSON_parse I18N coerce now s (line :: rest) =
  match dispatch I18N coerce now s evt with
  | (s', Normal) =>
      let '(events, s'', sg) := for_lines JSON_parse I18N coerce now s' rest in
      (evt :: events, s'', sg)
  | (s', sg) => ([evt], s', sg)
  end.
Proof. intros Hb Hp; simpl. rewrite Hb, Hp. reflexivity. Qed.

(** C4. Resilience to malformed frames: a line on which [JSON.parse]
    throws is skipped without a trace.  The run over the lines with the
    bad line among them is the run over the lines without it: the same
    events in the same order, the same state, the same way of leaving
    the loop, so no error comes from the bad line; in particular two
    event lines around it are both delivered, in order, when the first
    does not end the run. *)
Theorem malformed_line_skipped (s : state) (before after : list jsstring)
        (bad : jsstring) :
  JSON_parse bad = None ->
  for_lines JSON_parse I18N coerce now s (before ++ bad :: after) =
  for_lines JSON_parse I18N coerce now s (before ++ after)
  /\ forall (l1 l2 : jsstring) (e1 e2 : json),
      blank l1 = false -> JSON_parse l1 = Some e1 ->
      blank l2 = false -> JSON_parse l2 = Some e2 ->
      snd (dispatch I18N coerce now s e1) = Normal ->
      fst (fst (for_lines JSON_parse I18N coerce now s [l1; bad; l2])) = [e1; e2].
Proof.
  intros Hbad. split.
  - rewrite !for_lines_app.
    destruct (for_lines _ _ _ _ s before) as [[ev s1] [| |e]]; simpl;
      try reflexivity.
    fold (for_lines JSON_parse I18N coerce now).
    rewrite Hbad. destruct (blank bad); reflexivity.
  - intros l1 l2 e1 e2 Hb1 Hp1 Hb2 Hp2 Hn.
    rewrite (for_lines_event s l1 e1) by assumption.
    destruct (dispatch I18N coerce now s e1) as [s1 sg]; simpl in Hn; subst sg.
    rewrite for_lines_skip by assumption.
    rewrite (for_lines_event s1 l2 e2) by assumption.
    destruct (dispatch I18N coerce now s1 e2) as [s2 [| |e]]; reflexivity.
Qed.

Lemma dispatch_not_terminal (s : state) (evt : json) :
  evt <> JNull -> terminal evt = false ->
  snd (dispatch I18N coerce now s evt) = Normal.
Proof.
  intros Hn Ht. unfold terminal in Ht. apply orb_false_iff in Ht as [Hd He].
  destruct evt; try congruence; unfold dispatch; try reflexivity.
  rewrite Hd, He.
  destruct (is_str _ "meta"); [reflexivity|].
  destruct (is_str _ "progress"); reflexivity.
Qed.

(** Lines none of which parses to null or to a terminal event are all
    consumed. *)
Lemma for_lines_all_consumed (lines : list jsstring) :
  forall s : state,
    (forall line evt, In line lines -> blank line = false ->
                      JSON_parse line = Some evt ->
                      evt <> JNull /\ terminal evt = false) ->
    snd (for_lines JSON_parse I18N coerce now s lines) = Normal.
Proof.
  induction lines as [|line rest IH]; intros s H; [reflexivity|].
  simpl.
  destruct (blank line) eqn:Hb.
  { apply IH. intros l e Hin. apply H. now right. }
  destruct (JSON_parse line) as [evt|] eqn:Hp.
  2:{ apply IH. intros l e Hin. apply H. now right. }
  destruct (H line evt (or_introl eq_refl) Hb Hp) as [Hn Ht].
  pose proof (dispatch_not_terminal s evt Hn Ht) as Hd.
  destruct (dispatch I18N coerce now s evt) as [s1 sg]; simpl in Hd; subst sg.
  specialize (IH s1 (fun l e Hin => H l e (or_intror Hin))).
  destruct (for_lines _ _ _ _ s1 rest) as [[ev s2] sg]. exact IH.
Qed.

(** A stream whose complete lines hold neither null nor a terminal event
    ends in the error of the truncated stream, after the events of its
    complete lines; the fragment after the last newline plays no part. *)
Lemma truncated_stream (page : state) (chunks : list (list byte)) :
  (forall line evt, In line (complete_lines (decoded chunks)) ->
                    blank line = false -> JSON_parse line = Some evt ->
                    evt <> JNull /\ terminal evt = false) ->
  exists events s,
    for_lines JSON_parse I18N coerce now (start I18N page)
              (complete_lines (decoded chunks)) = (events, s, Normal)
    /\ generateViaStream JSON_parse I18N coerce now page chunks =
       (events, s, Thrown (stream_ended I18N)).
Proof.
  intros H. rewrite generateViaStream_lines.
  pose proof (for_lines_all_consumed _ (start I18N page) H) as Hn.
  destruct (for_lines _ _ _ _ (start I18N page) _) as [[ev s] sg].
  simpl in Hn; subst sg. exists ev, s. split; [reflexivity|].
  unfold finish, and_then. rewrite app_nil_r. reflexivity.
Qed.

(** Two bodies with the same complete lines give the same run: what
    follows the last newline is never parsed. *)
Lemma trailing_fragment_ignored (page : state) (c1 c2 : list (list byte)) :
  complete_lines (decoded c1) = complete_lines (decoded c2) ->
  generateViaStream JSON_parse I18N coerce now page c1 =
  generateViaStream JSON_parse I18N coerce now page c2.
Proof. intros H. rewrite !generateViaStream_lines, H. reflexivity. Qed.

(** C5 at the input on which it fails: a body made of the one line
    [null].  [JSON.parse] returns null, reading [evt.type] throws a
    TypeError in the middle of the stream, and the error of the
    truncated stream is never raised. *)
Theorem null_line_raises_TypeError (page : state) :
  JSON_parse (lit "null") = Some JNull ->
  generateViaStream JSON_parse I18N coerce now page
    [[x6e; x75; x6c; x6c; x0a]] =
  ([JNull], start I18N page, Thrown (TypeError "type")).
Proof.
  intros H. rewrite generateViaStream_lines.
  change (complete_lines (decoded [[x6e; x75; x6c; x6c; x0a]]))
    with [lit "null"].
  simpl. rewrite H. reflexivity.
Qed.








End LineFacts.

(* ------------------------------------------------------------------ *)
(** ** The completion handler                                          *)
(* ------------------------------------------------------------------ *)

Lemma nullish_absent (a : option json) (d : json) :
  absent a -> nullish a d = d.
Proof. intros [-> | ->]; reflexivity. Qed.

Lemma nullish_opt_absent (a b : option json) :
  absent a -> nullish_opt a b = b.
Proof. intros [-> | ->]; reflexivity. Qed.

Lemma or_else_absent (a : option json) (d : json) :
  absent a -> or_else a d = d.
Proof. intros [-> | ->]; reflexivity. Qed.

(** The label written by [applyDoneUI], whether or not it completes. *)
Lemma applyDoneUI_mArea (evt : json) (v : ui) :
  mArea (fst (applyDoneUI evt v)) =
  nullish (nullish_opt (get (or_else (get evt "stats") (JObj [])) "area_path")
                       (get (or_else (get evt "stats") (JObj [])) "project_id"))
          dash.
Proof.
  unfold applyDoneUI.
  destruct (match get _ "requirements_limit_reached_detail" with
            | Some (JArr items) => items
            | _ => []
            end) as [|item rest]; [reflexivity|].
  destruct (render_items (item :: rest) []) as [items [e|]]; reflexivity.
Qed.

Lemma applyDoneUI_bare (evt : json) (v : ui) :
  bare_done evt ->
  applyDoneUI evt v =
  (mk_ui (progressBar_width v) (progressText v) (toast v)
         TC_csv (JInt 0) (JInt 0) (JInt 0) (JInt 0) (JInt 0) (JInt 0)
         dash (JInt 0) true [] true, None).
Proof.
  intros (Hin & Hout & Hel & Hreq & Htc & Hnt & Hlim & Harea & Hprj & Hdet & Hfn).
  unfold applyDoneUI.
  rewrite (nullish_absent _ _ Hin), (nullish_absent _ _ Hout),
    (nullish_absent _ _ Hel), (nullish_absent _ _ Hreq),
    (nullish_absent _ _ Htc), (nullish_absent _ _ Hnt),
    (nullish_absent _ _ Hlim), (nullish_opt_absent _ _ Harea),
    (nullish_absent _ _ Hprj), (or_else_absent _ _ Hfn).
  destruct Hdet as [-> | ->]; reflexivity.
Qed.

Section CompletionFacts.

Variable I18N : json -> option json.
Variable coerce : json -> num.
Variable now : nat -> Q.

Lemma on_done_view (s : state) (evt : json) :
  exists v : ui,
    view (fst (on_done I18N s evt)) = fst (applyDoneUI evt v).
Proof.
  unfold on_done.
  match goal with |- context [applyDoneUI evt ?v1] => exists v1;
    destruct (applyDoneUI evt v1) as [v2 [e|]] end; reflexivity.
Qed.

(** C7. Completion defaulting: a done event without usage, elapsed time,
    statistics (or without their fields) and file name ends the run with
    success and leaves 0 in both token counts, in the elapsed time and
    in every integer statistic, the placeholder [-] as label and
    [TC.csv] as file name, on the page and in the name kept for the
    download; no field is left without a value. *)
Theorem done_defaults (s : state) (evt : json) :
  is_str (get evt "type") "done" = true ->
  bare_done evt ->
  snd (dispatch I18N coerce now s evt) = Returned
  /\ lastFilename (fst (dispatch I18N coerce now s evt)) = TC_csv
  /\ readyFilename (view (fst (dispatch I18N coerce now s evt))) = TC_csv
  /\ mInput (view (fst (dispatch I18N coerce now s evt))) = JInt 0
  /\ mOutput (view (fst (dispatch I18N coerce now s evt))) = JInt 0
  /\ mTime (view (fst (dispatch I18N coerce now s evt))) = JInt 0
  /\ mReq (view (fst (dispatch I18N coerce now s evt))) = JInt 0
  /\ mTc (view (fst (dispatch I18N coerce now s evt))) = JInt 0
  /\ mNot (view (fst (dispatch I18N coerce now s evt))) = JInt 0
  /\ mLimit (view (fst (dispatch I18N coerce now s evt))) = JInt 0
  /\ mArea (view (fst (dispatch I18N coerce now s evt))) = dash
  /\ limitDetailList (view (fst (dispatch I18N coerce now s evt))) = [].
Proof.
  intros Hty Hbare. rewrite (dispatch_done _ _ _ _ _ Hty).
  unfold on_done. rewrite (applyDoneUI_bare _ _ Hbare).
  destruct Hbare as (_ & _ & _ & _ & _ & _ & _ & _ & _ & _ & Hfn).
  cbn [fst snd lastFilename with_last with_view view readyFilename mInput
       mOutput mTime mReq mTc mNot mLimit mArea limitDetailList].
  rewrite (or_else_absent _ _ Hfn). repeat split.
Qed.

(** C8. Label precedence: for a done event the label written to the page
    is the area label when the statistics carry one, whether or not they
    also carry a project label; it is the project label when only that
    one is there; and it is the placeholder [-] when neither is. *)
Theorem label_precedence (s : state) (evt : json) :
  is_str (get evt "type") "done" = true ->
  (forall area project : json,
      get (or_else (get evt "stats") (JObj [])) "area_path" = Some area ->
      area <> JNull ->
      get (or_else (get evt "stats") (JObj [])) "project_id" = Some project ->
      mArea (view (fst (dispatch I18N coerce now s evt))) = area)
  /\ (forall project : json,
         absent (get (or_else (get evt "stats") (JObj [])) "area_path") ->
         get (or_else (get evt "stats") (JObj [])) "project_id" = Some project ->
         project <> JNull ->
         mArea (view (fst (dispatch I18N coerce now s evt))) = project)
  /\ (absent (get (or_else (get evt "stats") (JObj [])) "area_path") ->
      absent (get (or_else (get evt "stats") (JObj [])) "project_id") ->
      mArea (view (fst (dispatch I18N coerce now s evt))) = dash).
Proof.
  intros Hty. rewrite (dispatch_done _ _ _ _ _ Hty).
  destruct (on_done_view s evt) as [v ->]. rewrite applyDoneUI_mArea.
  repeat split.
  - intros area project -> Ha _. destruct area; congruence || reflexivity.
  - intros project Ha -> Hp. rewrite (nullish_opt_absent _ _ Ha).
    destruct project; congruence || reflexivity.
  - intros Ha Hp. rewrite (nullish_opt_absent _ _ Ha).
    apply nullish_absent. exact Hp.
Qed.

End CompletionFacts.

(* ------------------------------------------------------------------ *)
(** ** The download                                                    *)
(* ------------------------------------------------------------------ *)

Lemma ci_prefix_split (pat s rest : jsstring) :
  ci_prefix pat s = Some rest ->
  exists head, s = head ++ rest /\ ci_prefix pat head = Some [].
Proof.
  revert s; induction pat as [|p pat IH]; intros s H.
  - simpl in H. injection H as <-. exists []. split; reflexivity.
  - destruct s as [|c s]; [discriminate H|]. simpl in H.
    destruct (ci_match p c) eqn:E; [|discriminate H].
    destruct (IH s H) as (head & -> & Hh).
    exists (c :: head). split; [reflexivity|]. simpl. rewrite E. exact Hh.
Qed.

Lemma ci_prefix_app (pat head rest : jsstring) :
  ci_prefix pat head = Some [] -> ci_prefix pat (head ++ rest) = Some rest.
Proof.
  revert head; induction pat as [|p pat IH]; intros head H.
  - simpl in H. injection H as ->. reflexivity.
  - destruct head as [|c head]; [discriminate H|]. simpl in *.
    destruct (ci_match p c); [apply IH; exact H | discriminate H].
Qed.

Lemma span_unquoted_split (s : jsstring) :
  s = fst (span_unquoted s) ++ snd (span_unquoted s)
  /\ ~ In QUOTE (fst (span_unquoted s))
  /\ (snd (span_unquoted s) = []
      \/ exists r, snd (span_unquoted s) = QUOTE :: r).
Proof.
  induction s as [|c s (IH1 & IH2 & IH3)]; simpl.
  - repeat split; auto.
  - destruct (c =? QUOTE) eqn:E.
    + apply Z.eqb_eq in E; subst c. simpl. repeat split; auto.
      right. eexists; reflexivity.
    + apply Z.eqb_neq in E.
      destruct (span_unquoted s) as [v rest]; simpl in *.
      repeat split.
      * f_equal. exact IH1.
      * intros [H|H]; [congruence | contradiction].
      * exact IH3.
Qed.

Lemma span_unquoted_app (v post : jsstring) :
  ~ In QUOTE v -> span_unquoted (v ++ QUOTE :: post) = (v, QUOTE :: post).
Proof.
  induction v as [|c v IH]; intros H; simpl.
  - reflexivity.
  - destruct (c =? QUOTE) eqn:E.
    + apply Z.eqb_eq in E. exfalso; apply H; left; auto.
    + rewrite IH; [reflexivity|]. intros Hin; apply H; right; exact Hin.
Qed.

Lemma match_here_sound (cd v : jsstring) :
  match_here cd = Some v -> pattern_occurs cd v.
Proof.
  unfold match_here. intros H.
  destruct (ci_prefix _ cd) as [rest|] eqn:Ep; [|discriminate H].
  destruct (ci_prefix_split _ _ _ Ep) as (head & -> & Hh).
  destruct (span_unquoted_split rest) as (Hs & Hq & Hr).
  destruct (span_unquoted rest) as [w after]; simpl in *.
  destruct w as [|c w]; [discriminate H|].
  destruct after as [|q after]; [discriminate H|].
  injection H as <-.
  destruct Hr as [Hr | [r Hr]]; [discriminate Hr|]. injection Hr as -> ->.
  exists [], head, r. simpl. repeat split; auto.
  - rewrite Hs. reflexivity.
  - discriminate.
Qed.

Lemma match_filename_sound (cd v : jsstring) :
  match_filename cd = Some v -> pattern_occurs cd v.
Proof.
  induction cd as [|c cd IH].
  - cbn [match_filename]. destruct (match_here []) eqn:E; [|discriminate].
    intros H; injection H as ->. apply match_here_sound; exact E.
  - cbn [match_filename]. destruct (match_here (c :: cd)) as [w|] eqn:E.
    + intros H; injection H as ->. apply match_here_sound; exact E.
    + intros H. destruct (IH H) as (pre & head & post & -> & Hh & Hv & Hq).
      exists (c :: pre), head, post. repeat split; auto.
Qed.

Lemma match_filename_complete (cd v : jsstring) :
  pattern_occurs cd v -> match_filename cd <> None.
Proof.
  intros (pre & head & post & -> & Hh & Hv & Hq).
  induction pre as [|c pre IH].
  - assert (E : match_here (head ++ v ++ QUOTE :: post) = Some v).
    { unfold match_here. rewrite (ci_prefix_app _ _ _ Hh).
      rewrite (span_unquoted_app _ _ Hq).
      destruct v; [now elim Hv | reflexivity]. }
    simpl app. destruct (head ++ v ++ QUOTE :: post);
      cbn [match_filename]; rewrite E; discriminate.
  - simpl app. cbn [match_filename].
    destruct (match_here _); [discriminate | exact IH].
Qed.

Lemma pattern_group_truthy (cd v : jsstring) :
  pattern_occurs cd v -> or_else (Some (JStr v)) TC_csv = JStr v.
Proof.
  intros (_ & _ & _ & _ & _ & Hv & _). destruct v; [now elim Hv | reflexivity].
Qed.

Section DownloadFacts.

Variable I18N : json -> option json.
Variable atob : json -> attempt (list byte).
Variable fetch : jsstring -> attempt response.

(** What a click does once the inline payload is out of the way and a
    URL is configured. *)
Lemma download_fallback (url : jsstring) (s : state) :
  truthy (lastCsvB64 s) = false -> url <> [] ->
  download I18N atob fetch (Some url) s =
  [SetDisabled true]
  ++ (fst (downloadCsvNoReload I18N fetch url)
      ++ [match snd (downloadCsvNoReload I18N fetch url) with
          | None => ToastOk (UI_DOWNLOAD_STARTED I18N)
          | Some m => on_catch I18N m
          end])
  ++ [SetDisabled false].
Proof.
  intros Hp Hu. unfold download. rewrite Hp.
  destruct url as [|c url]; [now elim Hu|].
  destruct (downloadCsvNoReload I18N fetch (c :: url)) as [done [m|]];
    reflexivity.
Qed.

(** C9 (amended). Download priority.  When the payload kept from the run
    is truthy, no request is issued and, if it decodes, the one file
    saved holds exactly its decoded bytes.  When it is null and a
    download URL is configured, exactly one request is issued whatever
    the answer; a response that is not ok saves nothing and shows an
    error; a response that is ok saves its body under group 1 of the
    match of the pattern in the Content-Disposition header, and under
    [TC.csv] when the header is missing or holds no match.  When it is
    null and no download URL is configured, no request is issued and an
    error is shown. *)
Theorem download_priority (downloadUrl : option jsstring) (s : state) :
  (truthy (lastCsvB64 s) = true ->
   requests (download I18N atob fetch downloadUrl s) = 0%nat
   /\ forall content : list byte,
       atob (lastCsvB64 s) = Success content ->
       saved (download I18N atob fetch downloadUrl s) =
       [(content, or_else (Some (lastFilename s)) TC_csv)])
  /\ (truthy (lastCsvB64 s) = false ->
      forall url : jsstring,
        downloadUrl = Some url -> url <> [] ->
        requests (download I18N atob fetch downloadUrl s) = 1%nat
        /\ (forall resp : response,
               fetch url = Success resp -> ok resp = false ->
               download I18N atob fetch downloadUrl s =
               [SetDisabled true; Request url;
                on_catch I18N (UI_DOWNLOAD_FAILED I18N); SetDisabled false])
        /\ (forall resp : response,
               fetch url = Success resp -> ok resp = true ->
               (Content_Disposition resp = None ->
                saved (download I18N atob fetch downloadUrl s) =
                [(body resp, TC_csv)])
               /\ (forall cd v : jsstring,
                      Content_Disposition resp = Some cd ->
                      match_filename cd = Some v ->
                      pattern_occurs cd v
                      /\ saved (download I18N atob fetch downloadUrl s) =
                         [(body resp, JStr v)])
               /\ (forall cd : jsstring,
                      Content_Disposition resp = Some cd ->
                      match_filename cd = None ->
                      (forall v, ~ pattern_occurs cd v)
                      /\ saved (download I18N atob fetch downloadUrl s) =
                         [(body resp, TC_csv)])))
  /\ (truthy (lastCsvB64 s) = false ->
      downloadUrl = None \/ downloadUrl = Some [] ->
      download I18N atob fetch downloadUrl s =
      [SetDisabled true; ModalError (UI_DOWNLOAD_URL_MISSING I18N);
       SetDisabled false]).
Proof.
  split; [|split].
  - intros Hp. unfold download, base64ToUint8Array. rewrite Hp. split.
    + destruct (atob (lastCsvB64 s)); reflexivity.
    + intros content ->. reflexivity.
  - intros Hp url -> Hu. rewrite (download_fallback url s Hp Hu).
    unfold downloadCsvNoReload. split; [|split].
    + destruct (fetch url) as [resp|m]; [|reflexivity].
      destruct (ok resp); reflexivity.
    + intros resp -> Hok. rewrite Hok. reflexivity.
    + intros resp -> Hok. rewrite Hok. split; [|split].
      * intros ->. reflexivity.
      * intros cd v -> Hm. rewrite Hm.
        pose proof (match_filename_sound cd v Hm) as Hocc.
        split; [exact Hocc|].
        pose proof (pattern_group_truthy cd v Hocc) as Hname.
        cbn [fst snd app]. unfold triggerDownload. rewrite Hname.
        reflexivity.
      * intros cd -> Hm. rewrite Hm. split; [|reflexivity].
        intros v Hocc. apply (match_filename_complete cd v Hocc). exact Hm.
  - intros Hp [-> | ->]; unfold download; rewrite Hp; reflexivity.
Qed.

End DownloadFacts.

(* ------------------------------------------------------------------ *)
(** ** The theorems at concrete inputs                                 *)
(* ------------------------------------------------------------------ *)

Module Checks.

Import Sample.

(** The euro sign, three bytes, cut after its second byte. *)
Example euro_cut_by_a_chunk_boundary :
  let (d1, t1) := Utf8.decode Utf8.create [xe2; x82] in
  let (d2, t2) := Utf8.decode d1 [xac; x0a] in
  t1 = [] /\ t2 = [0x20AC; LF]
  /\ Utf8.decode Utf8.create [xe2; x82; xac; x0a] = (d2, [0x20AC; LF]).
Proof. vm_compute. repeat split. Qed.

(** The same cut seen by the whole run: a line made of the euro sign,
    delivered byte by byte, is the line delivered at once. *)
Example euro_line_cut_by_chunk_boundaries :
  generateViaStream parse_euro no_table no_coercion clock2s fresh_page
    [[xe2]; [x82]; [xac; x0a]]
  = generateViaStream parse_euro no_table no_coercion clock2s fresh_page
      [[xe2; x82; xac; x0a]]
  /\ fst (fst (generateViaStream parse_euro no_table no_coercion clock2s
                 fresh_page [[xe2]; [x82]; [xac; x0a]])) = [meta3].
Proof. vm_compute. split; reflexivity. Qed.

(** Scenario A, cut into chunks in the middle of its lines: the final
    width is 100, the file name is TC.csv and the payload is kept. *)
Example scenario_A :
  let '(events, s, sg) :=
    run [bytes "meta3"; newline ++ bytes "progr"; bytes "ess13";
         newline ++ bytes "done" ++ newline ++ bytes "progress13"] in
  events = [meta3; progress13; done_inline] /\ sg = Returned
  /\ progressBar_width (view s) = of_Z 100
  /\ lastFilename s = TC_csv /\ lastCsvB64 s = str "QUI=".
Proof. vm_compute. repeat split. Qed.

(** A progress event with done above total: the width stays at 100. *)
Example done_above_total :
  progressBar_width
    (view (fst (dispatch no_table no_coercion clock2s (start no_table fresh_page)
                  (obj [("type", str "progress"); ("done", JInt 5);
                        ("total", JInt 3)]%string))))
  = of_Z 100.
Proof. vm_compute. reflexivity. Qed.



(** Two seconds for the first of three blocks: four seconds to go. *)
Example eta_four_seconds :
  eta no_coercion (JInt 1) (JInt 3) 2 = Some (of_Z 4)
  /\ eta_spec 1 3 2 = 4.
Proof. vm_compute. split; reflexivity. Qed.


Lemma malformed_line_skipped_witness :
  for_lines parse no_table no_coercion clock2s (start no_table fresh_page)
    ([lit "meta3"] ++ lit "{junk" :: [lit "progress13"]) =
  for_lines parse no_table no_coercion clock2s (start no_table fresh_page)
    ([lit "meta3"] ++ [lit "progress13"])
  /\ fst (fst (for_lines parse no_table no_coercion clock2s
                 (start no_table fresh_page)
                 [lit "meta3"; lit "{junk"; lit "progress13"]))
     = [meta3; progress13].
Proof.
  destruct (malformed_line_skipped parse no_table no_coercion clock2s
              (start no_table fresh_page) [lit "meta3"] [lit "progress13"]
              (lit "{junk") eq_refl) as [H1 H2].
  split; [exact H1|].
  apply (H2 (lit "meta3") (lit "progress13") meta3 progress13);
    reflexivity.
Defined.

Lemma null_line_raises_TypeError_witness :
  run [[x6e; x75; x6c; x6c; x0a]] =
  ([JNull], start no_table fresh_page, Thrown (TypeError "type"))
  /\ Thrown (TypeError "type") <> Thrown (stream_ended no_table).
Proof.
  split; [|discriminate].
  apply (null_line_raises_TypeError parse no_table no_coercion clock2s
           fresh_page eq_refl).
Defined.

(** A stream that stops after its meta line, with an unfinished line
    behind it, ends in the error of the truncated stream. *)
Example scenario_B :
  run [bytes "meta3" ++ newline ++ bytes "progress13"] =
  ([meta3],
   fst (dispatch no_table no_coercion clock2s (start no_table fresh_page) meta3),
   Thrown (stream_ended no_table)).
Proof. vm_compute. reflexivity. Qed.


(** Scenario D: an error event after two progress events. *)
Example scenario_D :
  let '(events, s, sg) :=
    run [bytes "progress13" ++ newline ++ bytes "progress13" ++ newline
         ++ bytes "error" ++ newline ++ bytes "done" ++ newline] in
  events = [progress13; progress13; error_engine]
  /\ sg = Thrown (Error (str "An error occurred while generating test cases."))
  /\ lastCsvB64 s = JNull.
Proof. vm_compute. repeat split. Qed.

Lemma bare_done_done_bare : bare_done done_bare.
Proof. unfold bare_done. repeat split; left; reflexivity. Defined.

Lemma done_defaults_witness :
  snd (dispatch no_table no_coercion clock2s (start no_table fresh_page) done_bare)
  = Returned
  /\ lastFilename (fst (dispatch no_table no_coercion clock2s
                          (start no_table fresh_page) done_bare)) = TC_csv.
Proof.
  destruct (done_defaults no_table no_coercion clock2s
              (start no_table fresh_page) done_bare eq_refl
              bare_done_done_bare) as (H1 & H2 & _).
  split; assumption.
Defined.

Lemma label_precedence_witness :
  mArea (view (fst (dispatch no_table no_coercion clock2s
                      (start no_table fresh_page) done_labels)))
  = str "AREA".
Proof.
  destruct (label_precedence no_table no_coercion clock2s
              (start no_table fresh_page) done_labels eq_refl) as (H & _ & _).
  apply (H (str "AREA") (str "PRJ")); [reflexivity | discriminate | reflexivity].
Defined.

Example label_project_only :
  mArea (view (fst (dispatch no_table no_coercion clock2s
                      (start no_table fresh_page) done_project)))
  = str "PRJ".
Proof. vm_compute. reflexivity. Qed.

(** C9, the counterexample: no payload is kept and the form carries no
    download URL.  The click shows an error and issues no request. *)
Lemma no_request_without_url :
  ~ one_request_without_payload no_table Sample.atob (server None) None
      fresh_page.
Proof.
  intros H. specialize (H eq_refl). vm_compute in H. discriminate H.
Qed.

Lemma download_priority_witness :
  (requests (download no_table Sample.atob (server (Some attachment))
               (Some download_url) page_with_payload) = 0%nat
   /\ saved (download no_table Sample.atob (server (Some attachment))
               (Some download_url) page_with_payload)
      = [([x41; x42], TC_csv)])
  /\ (requests (download no_table Sample.atob (server (Some attachment))
                  (Some download_url) fresh_page) = 1%nat
      /\ saved (download no_table Sample.atob (server (Some attachment))
                  (Some download_url) fresh_page)
         = [([x61; x2c; x62], str "report.csv")]).
Proof.
  split.
  - destruct (download_priority no_table Sample.atob (server (Some attachment))
                (Some download_url) page_with_payload) as (H & _ & _).
    destruct (H eq_refl) as [H1 H2]. split; [exact H1|].
    apply (H2 [x41; x42]). reflexivity.
  - destruct (download_priority no_table Sample.atob (server (Some attachment))
                (Some download_url) fresh_page) as (_ & H & _).
    destruct (H eq_refl download_url eq_refl) as (H1 & _ & H3);
      [discriminate|].
    split; [exact H1|].
    destruct (H3 (csv_response (Some attachment)) eq_refl eq_refl)
      as (_ & H4 & _).
    apply (H4 attachment (lit "report.csv")); reflexivity.
Defined.

Lemma zero_counts_as_absent_witness :
  total (fst (dispatch no_table no_coercion clock2s
                (fst (dispatch no_table no_coercion clock2s
                        (start no_table fresh_page) meta3))
                progress_no_done)) = JInt 3
  /\ done (fst (dispatch no_table no_coercion clock2s
                  (fst (dispatch no_table no_coercion clock2s
                          (start no_table fresh_page) meta3))
                  progress_no_done)) = JInt 0.
Proof.
  destruct (zero_counts_as_absent no_table no_coercion clock2s
              (fst (dispatch no_table no_coercion clock2s
                      (start no_table fresh_page) meta3))
              progress_no_done) as (_ & H & _).
  destruct (H eq_refl) as [H1 H2].
  split; [exact (H1 eq_refl) | exact (H2 eq_refl)].
Defined.

(** A meta event without total_blocks after one that announced three
    blocks: the tracked total falls back to 0. *)
Example meta_without_total :
  total (fst (dispatch no_table no_coercion clock2s
                (fst (dispatch no_table no_coercion clock2s
                        (start no_table fresh_page) meta3))
                meta_no_total)) = JInt 0.
Proof. vm_compute. reflexivity. Qed.

End Checks.

(* ------------------------------------------------------------------ *)
(** ** Further properties: the frame decoder                           *)
(* ------------------------------------------------------------------ *)

Lemma split_nl_join (s : jsstring) :
  join_nl (removelast (split_nl s)) ++ last (split_nl s) [] = s.
Proof.
  induction s as [|c s IH]; [reflexivity|].
  cbn [split_nl]. destruct (c =? LF) eqn:E.
  - apply Z.eqb_eq in E; subst c.
    destruct (split_nl s) as [|l ls] eqn:Es; [now apply split_nl_nonempty in Es|].
    change (removelast ([] :: l :: ls)) with ([] :: removelast (l :: ls)).
    change (last ([] :: l :: ls) []) with (last (l :: ls) (@nil Z)).
    cbn [join_nl flat_map app]. f_equal. exact IH.
  - destruct (split_nl s) as [|l ls] eqn:Es; [now apply split_nl_nonempty in Es|].
    destruct ls as [|l' ls'].
    + cbn in IH |- *. f_equal. exact IH.
    + change (removelast ((c :: l) :: l' :: ls'))
        with ((c :: l) :: removelast (l' :: ls')).
      change (last ((c :: l) :: l' :: ls') []) with (last (l' :: ls') (@nil Z)).
      change (removelast (l :: l' :: ls')) with (l :: removelast (l' :: ls')) in IH.
      change (last (l :: l' :: ls') []) with (last (l' :: ls') (@nil Z)) in IH.
      cbn [join_nl flat_map app] in IH |- *. f_equal. exact IH.
Qed.

Lemma split_nl_no_newline (s : jsstring) :
  Forall (fun l => ~ In LF l) (split_nl s).
Proof.
  induction s as [|c s IH]; cbn [split_nl].
  - constructor; [intros []|constructor].
  - destruct (c =? LF) eqn:E.
    + constructor; [intros []|exact IH].
    + apply Z.eqb_neq in E.
      destruct (split_nl s) as [|l ls].
      * constructor; [|constructor]. intros [H|[]]. congruence.
      * inversion IH as [|? ? Hl Hls]; subst.
        constructor; [|exact Hls]. intros [H|H]; [congruence|contradiction].
Qed.

Lemma Forall_removelast {A : Type} (P : A -> Prop) (l : list A) :
  Forall P l -> Forall P (removelast l).
Proof.
  induction l as [|x l IH]; intros H; [constructor|].
  inversion H as [|? ? Hx Hl]; subst. destruct l as [|y l]; [constructor|].
  change (removelast (x :: y :: l)) with (x :: removelast (y :: l)).
  constructor; [exact Hx | apply IH; exact Hl].
Qed.

Lemma Forall_last {A : Type} (P : A -> Prop) (l : list A) (d : A) :
  Forall P l -> P d -> P (last l d).
Proof.
  induction l as [|x l IH]; intros H Hd; [exact Hd|].
  inversion H as [|? ? Hx Hl]; subst. destruct l as [|y l]; [exact Hx|].
  change (last (x :: y :: l) d) with (last (y :: l) d). apply IH; assumption.
Qed.

(** X1. The frame decoder loses nothing: after [split] and [pop] on the
    buffer extended by the decoded text, the lines handed to the loop,
    each followed by a newline, followed by the new buffer, are that
    text again; no line and no buffer holds a newline. *)
Theorem frame_split_loses_nothing (buffer text : jsstring) :
  join_nl (fst (pop (split_nl (buffer ++ text))))
  ++ snd (pop (split_nl (buffer ++ text))) = buffer ++ text
  /\ Forall (fun l => ~ In LF l) (fst (pop (split_nl (buffer ++ text))))
  /\ ~ In LF (snd (pop (split_nl (buffer ++ text)))).
Proof.
  unfold pop, fst, snd. split; [apply split_nl_join|]. split.
  - apply Forall_removelast, split_nl_no_newline.
  - apply (Forall_last (fun l => ~ In LF l)); [apply split_nl_no_newline|].
    intros [].
Qed.

(* ------------------------------------------------------------------ *)
(** ** Further properties: the loop over the lines                     *)
(* ------------------------------------------------------------------ *)

Section LoopFacts.

Variable JSON_parse : jsstring -> option json.
Variable I18N : json -> option json.
Variable coerce : json -> num.
Variable now : nat -> Q.

Lemma for_lines_prefix (lines : list jsstring) :
  forall s : state,
    exists rest,
      parsed JSON_parse lines =
      fst (fst (for_lines JSON_parse I18N coerce now s lines)) ++ rest
      /\ (snd (for_lines JSON_parse I18N coerce now s lines) = Normal ->
          rest = []).
Proof.
  induction lines as [|line lines IH]; intros s.
  - exists []. split; reflexivity.
  - cbn [parsed flat_map for_lines]. fold (parsed JSON_parse lines).
    destruct (blank line); [apply IH|].
    destruct (JSON_parse line) as [evt|]; [|apply IH].
    destruct (dispatch I18N coerce now s evt) as [s1 [| |e]].
    + destruct (IH s1) as (rest & Hp & Hn).
      destruct (for_lines JSON_parse I18N coerce now s1 lines) as [[ev s2] sg].
      exists rest. split; [cbn in *; rewrite Hp; reflexivity | exact Hn].
    + exists (parsed JSON_parse lines). split; [reflexivity|discriminate].
    + exists (parsed JSON_parse lines). split; [reflexivity|discriminate].
Qed.

(** X2. Delivery order is wire order: the events a run dispatches are,
    in order and without repetition, the values of the first complete
    lines of the body that are not blank and that parse; none is left
    out before the event at which the run stops, and when the loop over
    some lines is not left, every such line was dispatched. *)
Theorem events_in_wire_order (page s : state) (chunks : list (list byte))
        (lines : list jsstring) :
  (exists rest,
      parsed JSON_parse (complete_lines (decoded chunks)) =
      fst (fst (generateViaStream JSON_parse I18N coerce now page chunks))
      ++ rest)
  /\ (snd (for_lines JSON_parse I18N coerce now s lines) = Normal ->
      fst (fst (for_lines JSON_parse I18N coerce now s lines)) =
      parsed JSON_parse lines).
Proof.
  split.
  - rewrite generateViaStream_lines.
    destruct (for_lines_prefix (complete_lines (decoded chunks))
                (start I18N page)) as (rest & Hp & _).
    destruct (for_lines _ _ _ _ (start I18N page) _) as [[ev s1] [| |e]];
      exists rest; cbn in *; rewrite ?app_nil_r; exact Hp.
  - intros Hn. destruct (for_lines_prefix lines s) as (rest & Hp & Hr).
    rewrite (Hr Hn), app_nil_r in Hp. symmetry; exact Hp.
Qed.

Lemma dispatch_unknown (s : state) (evt : json) :
  evt <> JNull -> unknown_type evt = true ->
  dispatch I18N coerce now s evt = (s, Normal).
Proof.
  intros Hn Hu. unfold unknown_type in Hu.
  repeat (apply andb_true_iff in Hu as [Hu ?]).
  apply negb_true_iff in Hu.
  repeat match goal with H : negb _ = true |- _ => apply negb_true_iff in H end.
  destruct evt; try congruence; unfold dispatch; try reflexivity.
  rewrite Hu.
  repeat match goal with H : is_str _ _ = false |- _ => rewrite H; clear H end.
  reflexivity.
Qed.

(** X3. Forward compatibility: a parsed value that is not null and whose
    type is none of meta, progress, done and error (an object of another
    or of no type, a number, a string, an array) changes neither the
    state nor the way the loop is left: the run goes on as if the line
    were not there. *)
Theorem unknown_event_ignored (s : state) (before after : list jsstring)
        (line : jsstring) (evt : json) :
  blank line = false -> JSON_parse line = Some evt ->
  evt <> JNull -> unknown_type evt = true ->
  dispatch I18N coerce now s evt = (s, Normal)
  /\ snd (fst (for_lines JSON_parse I18N coerce now s (before ++ line :: after)))
     = snd (fst (for_lines JSON_parse I18N coerce now s (before ++ after)))
  /\ snd (for_lines JSON_parse I18N coerce now s (before ++ line :: after))
     = snd (for_lines JSON_parse I18N coerce now s (before ++ after)).
Proof.
  intros Hb Hp Hn Hu. split; [apply dispatch_unknown; assumption|].
  rewrite !for_lines_app.
  destruct (for_lines _ _ _ _ s before) as [[ev s1] [| |e]]; cbn [and_then];
    try (split; reflexivity).
  rewrite (for_lines_event _ _ _ _ s1 line evt after Hb Hp).
  rewrite (dispatch_unknown s1 evt Hn Hu).
  destruct (for_lines _ _ _ _ s1 after) as [[ev' s2] sg]. split; reflexivity.
Qed.

End LoopFacts.

(* ------------------------------------------------------------------ *)
(** ** Further properties: how a run ends                              *)
(* ------------------------------------------------------------------ *)

Lemma or_else_truthy (a : option json) (d : json) :
  truthy d = true -> truthy (or_else a d) = true.
Proof.
  intros Hd. destruct a as [v|]; [|exact Hd]. simpl.
  destruct (truthy v) eqn:E; [exact E | exact Hd].
Qed.

Section ExitFacts.

Variable JSON_parse : jsstring -> option json.
Variable I18N : json -> option json.
Variable coerce : json -> num.
Variable now : nat -> Q.

Lemma t_truthy (code fallback : option json) :
  truthy_opt fallback = true -> truthy (t I18N code fallback) = true.
Proof.
  intros Hf. unfold t.
  assert (Ho : truthy (or_else fallback (or_else code (JStr []))) = true).
  { destruct fallback as [v|]; [|discriminate Hf]. simpl in *. rewrite Hf.
    exact Hf. }
  destruct code as [c|]; [|exact Ho].
  destruct (truthy c); [|exact Ho].
  destruct (I18N c) as [m|]; [|exact Ho].
  destruct (truthy m) eqn:Em; [exact Em | exact Ho].
Qed.

Lemma msg_truthy (code : string) (fallback : jsstring) :
  fallback <> [] -> truthy (msg I18N code fallback) = true.
Proof.
  intros H. apply t_truthy. destruct fallback; [now elim H | reflexivity].
Qed.

Lemma render_items_exn (items : list json) :
  forall (acc : list limit_item) (e : exn),
    snd (render_items items acc) = Some e -> e = TypeError "requirement".
Proof.
  induction items as [|item rest IH]; intros acc e; [discriminate|].
  destruct item; cbn [render_items]; try apply IH.
  cbn. intros H; injection H as <-. reflexivity.
Qed.

Lemma applyDoneUI_exn (evt : json) (v : ui) (e : exn) :
  snd (applyDoneUI evt v) = Some e -> e = TypeError "requirement".
Proof.
  unfold applyDoneUI.
  destruct (match get _ "requirements_limit_reached_detail" with
            | Some (JArr items) => items
            | _ => []
            end) as [|item rest]; [discriminate|].
  pose proof (render_items_exn (item :: rest) [] e) as H.
  destruct (render_items (item :: rest) []) as [items [e'|]];
    [exact H | discriminate].
Qed.

(** What [dispatch] does to the two variables kept for the download,
    and what it may throw. *)
Lemma dispatch_exit (s : state) (evt : json) :
  (snd (dispatch I18N coerce now s evt) <> Returned ->
   lastCsvB64 (fst (dispatch I18N coerce now s evt)) = lastCsvB64 s
   /\ lastFilename (fst (dispatch I18N coerce now s evt)) = lastFilename s)
  /\ (snd (dispatch I18N coerce now s evt) = Returned ->
      is_str (get evt "type") "done" = true
      /\ lastCsvB64 (fst (dispatch I18N coerce now s evt)) =
         (if truthy_opt (get evt "csv_b64")
          then or_else (get evt "csv_b64") JNull else JNull)
      /\ lastFilename (fst (dispatch I18N coerce now s evt)) =
         or_else (get evt "filename") TC_csv)
  /\ (forall m, snd (dispatch I18N coerce now s evt) = Thrown (Error m) ->
                truthy m = true).
Proof.
  destruct evt as [|b|q|str|items|fields];
    try (cbn; repeat split; congruence).
  unfold dispatch.
  destruct (is_str (get (JObj fields) "type") "meta");
    [cbn; repeat split; congruence|].
  destruct (is_str (get (JObj fields) "type") "progress");
    [cbn; repeat split; congruence|].
  destruct (is_str (get (JObj fields) "type") "done") eqn:Ed.
  - unfold on_done.
    match goal with |- context [applyDoneUI ?e ?v1] =>
      pose proof (applyDoneUI_exn e v1) as Hx;
      destruct (applyDoneUI e v1) as [v2 [x|]] end.
    + cbn. repeat split; try congruence.
      intros m Hm. specialize (Hx x eq_refl). congruence.
    + cbn. repeat split; congruence.
  - destruct (is_str (get (JObj fields) "type") "error").
    + cbn [fst snd]. repeat split; try congruence.
      intros m Hm. injection Hm as <-. apply t_truthy. cbn [truthy_opt].
      apply or_else_truthy, msg_truthy. discriminate.
    + cbn. repeat split; congruence.
Qed.

Lemma for_lines_exit (lines : list jsstring) :
  forall s : state,
    (snd (for_lines JSON_parse I18N coerce now s lines) <> Returned ->
     lastCsvB64 (snd (fst (for_lines JSON_parse I18N coerce now s lines)))
       = lastCsvB64 s
     /\ lastFilename (snd (fst (for_lines JSON_parse I18N coerce now s lines)))
        = lastFilename s)
    /\ (snd (for_lines JSON_parse I18N coerce now s lines) = Returned ->
        exists before evt,
          fst (fst (for_lines JSON_parse I18N coerce now s lines))
            = before ++ [evt]
          /\ is_str (get evt "type") "done" = true
          /\ lastCsvB64 (snd (fst (for_lines JSON_parse I18N coerce now s lines)))
             = (if truthy_opt (get evt "csv_b64")
                then or_else (get evt "csv_b64") JNull else JNull)
          /\ lastFilename (snd (fst (for_lines JSON_parse I18N coerce now s lines)))
             = or_else (get evt "filename") TC_csv)
    /\ (forall m,
           snd (for_lines JSON_parse I18N coerce now s lines) = Thrown (Error m) ->
           truthy m = true).
Proof.
  induction lines as [|line lines IH]; intros s.
  - cbn. repeat split; congruence.
  - cbn [for_lines]. destruct (blank line); [apply IH|].
    destruct (JSON_parse line) as [evt|]; [|apply IH].
    pose proof (dispatch_exit s evt) as (Hk & Hr & Hm).
    destruct (dispatch I18N coerce now s evt) as [s1 [| |e]]; cbn [fst snd] in *.
    + destruct (Hk ltac:(discriminate)) as [Hk1 Hk2].
      destruct (IH s1) as (IH1 & IH2 & IH3).
      destruct (for_lines JSON_parse I18N coerce now s1 lines) as [[ev s2] sg].
      cbn [fst snd] in *. split; [|split].
      * intros Hs. destruct (IH1 Hs) as [-> ->]. split; assumption.
      * intros Hs. destruct (IH2 Hs) as (before & e0 & -> & H).
        exists (evt :: before), e0. split; [reflexivity | exact H].
      * exact IH3.
    + split; [congruence|]. split; [|discriminate].
      intros _. exists [], evt. split; [reflexivity | apply Hr; reflexivity].
    + split; [intros _; apply Hk; discriminate|]. split; [discriminate|].
      exact Hm.
Qed.

(** X4. Success needs a done event: [generateViaStream] never falls
    out of its loop without returning or throwing, and when it returns,
    the last event it dispatched has type done, the payload kept for
    the download is the csv_b64 of that event when it is truthy and
    null otherwise, and the file name kept is its filename or TC.csv. *)
Theorem success_needs_done (page : state) (chunks : list (list byte)) :
  snd (generateViaStream JSON_parse I18N coerce now page chunks) <> Normal
  /\ (snd (generateViaStream JSON_parse I18N coerce now page chunks) = Returned ->
      exists before evt,
        fst (fst (generateViaStream JSON_parse I18N coerce now page chunks))
          = before ++ [evt]
        /\ is_str (get evt "type") "done" = true
        /\ lastCsvB64
             (snd (fst (generateViaStream JSON_parse I18N coerce now page chunks)))
           = (if truthy_opt (get evt "csv_b64")
              then or_else (get evt "csv_b64") JNull else JNull)
        /\ lastFilename
             (snd (fst (generateViaStream JSON_parse I18N coerce now page chunks)))
           = or_else (get evt "filename") TC_csv).
Proof.
  rewrite generateViaStream_lines.
  pose proof (for_lines_exit (complete_lines (decoded chunks)) (start I18N page))
    as (_ & Hr & _).
  destruct (for_lines _ _ _ _ (start I18N page) _) as [[ev s] [| |e]];
    cbn [finish and_then fst snd] in *.
  - split; [discriminate|]. discriminate.
  - split; [discriminate|]. exact Hr.
  - split; [discriminate|]. discriminate.
Qed.

(** X5. A run that fails leaves the download as it was: when
    [generateViaStream] throws, whatever the reason (an error event,
    the end of the stream, a TypeError), [lastCsvB64] and
    [lastFilename] still hold the values they had when it was
    called. *)
Theorem failed_run_keeps_download (page : state) (chunks : list (list byte)) :
  snd (generateViaStream JSON_parse I18N coerce now page chunks) <> Returned ->
  lastCsvB64 (snd (fst (generateViaStream JSON_parse I18N coerce now page chunks)))
    = lastCsvB64 page
  /\ lastFilename
       (snd (fst (generateViaStream JSON_parse I18N coerce now page chunks)))
     = lastFilename page.
Proof.
  rewrite generateViaStream_lines.
  pose proof (for_lines_exit (complete_lines (decoded chunks)) (start I18N page))
    as (Hk & _ & _).
  destruct (for_lines _ _ _ _ (start I18N page) _) as [[ev s] [| |e]];
    cbn [finish and_then fst snd] in *; intros H.
  - apply Hk. discriminate.
  - now elim H.
  - apply Hk. discriminate.
Qed.


End ExitFacts.

(* ------------------------------------------------------------------ *)
(** ** Further properties: the progress bar and the trimmed field      *)
(* ------------------------------------------------------------------ *)

(** X7. The bar never overflows: whatever number [setProgress] is given,
    fractional, negative or infinite, the width it writes lies between
    0 and 100; only NaN comes out as NaN.  A percentage that already
    lies between 0 and 100 is written as it is. *)
Theorem setProgress_width_bounded (pct : num) (text : ptext) (v : ui) :
  match progressBar_width (setProgress pct text v) with
  | Fin q => pct <> NaN /\ (0 <= q)%Q /\ (q <= 100)%Q
  | NaN => pct = NaN
  | _ => False
  end
  /\ forall q : Q,
      pct = Fin q -> (0 <= q)%Q -> (q <= 100)%Q ->
      exists r, progressBar_width (setProgress pct text v) = Fin r /\ (r == q)%Q.
Proof.
  cbn [setProgress progressBar_width].
  assert (H100 : (0 <= inject_Z 100)%Q) by discriminate.
  split.
  - destruct pct as [q| | |]; cbn [Num.max Num.min Num.leb zero of_Z].
    + destruct (Qle_bool (inject_Z 100) q) eqn:E.
      * change (Qle_bool 0 (inject_Z 100)) with true. cbn iota.
        split; [discriminate|]. split; [exact H100 | apply Qle_refl].
      * destruct (Qle_bool 0 q) eqn:F.
        -- apply Qle_bool_iff in F. split; [discriminate|].
           split; [exact F|].
           destruct (Qlt_le_dec 100 q) as [H|H]; [|exact H].
           assert (Qle_bool (inject_Z 100) q = true)
             by (apply Qle_bool_iff, Qlt_le_weak; exact H).
           congruence.
        -- split; [discriminate|]. split; [apply Qle_refl | discriminate].
    + change (Qle_bool 0 (inject_Z 100)) with true. cbn iota.
      split; [discriminate|]. split; [exact H100 | apply Qle_refl].
    + split; [discriminate|]. split; [apply Qle_refl | discriminate].
    + reflexivity.
  - intros q -> H0 Hq. cbn [Num.max Num.min Num.leb zero of_Z].
    destruct (Qle_bool (inject_Z 100) q) eqn:E.
    + change (Qle_bool 0 (inject_Z 100)) with true. cbn iota.
      exists (inject_Z 100). split; [reflexivity|].
      apply Qle_bool_iff in E. apply Qle_antisym; assumption.
    + apply Qle_bool_iff in H0. rewrite H0. exists q. split; reflexivity.
Qed.

Lemma blank_app (a b : jsstring) : blank (a ++ b) = blank a && blank b.
Proof. apply forallb_app. Qed.

Lemma blank_rev (s : jsstring) : blank (rev s) = blank s.
Proof.
  induction s as [|c s IH]; [reflexivity|].
  cbn [rev]. rewrite blank_app, IH. cbn. rewrite andb_true_r. apply andb_comm.
Qed.

(** What [trimStart] removes and what it stops at. *)
Lemma trimStart_split (s : jsstring) :
  exists l, s = l ++ trimStart s /\ blank l = true
            /\ match trimStart s with
               | c :: _ => is_space c = false
               | [] => True
               end.
Proof.
  induction s as [|c s (l & Hs & Hl & Hc)].
  - exists []. repeat split.
  - cbn [trimStart]. destruct (is_space c) eqn:E.
    + exists (c :: l). repeat split; [cbn; f_equal; exact Hs | cbn; rewrite E; exact Hl | exact Hc].
    + exists []. repeat split. exact E.
Qed.

Lemma trimStart_blank (s : jsstring) : str_empty (trimStart s) = blank s.
Proof.
  induction s as [|c s IH]; [reflexivity|].
  cbn. destruct (is_space c); [exact IH | reflexivity].
Qed.

Lemma str_empty_rev (s : jsstring) : str_empty (rev s) = str_empty s.
Proof.
  destruct s as [|c s]; [reflexivity|]. cbn.
  destruct (rev s); reflexivity.
Qed.

(** The test of the read loop on a line, [!line.trim()], holds exactly
    for the lines made of white space. *)
Lemma trim_blank (s : jsstring) : str_empty (trim s) = blank s.
Proof.
  unfold trim, trimEnd. rewrite str_empty_rev, trimStart_blank, blank_rev.
  destruct (trimStart_split s) as (l & Hs & Hl & _).
  rewrite Hs at 2. rewrite blank_app, Hl. cbn.
  symmetry. rewrite <- trimStart_blank.
  destruct (trimStart s) as [|c r] eqn:E; [reflexivity|].
  assert (Hc : is_space c = false).
  { pose proof (trimStart_split s) as (l' & _ & _ & Hc). rewrite E in Hc. exact Hc. }
  cbn. rewrite Hc. reflexivity.
Qed.

Lemma trim_split (s : jsstring) :
  exists l r, s = l ++ trim s ++ r /\ blank l = true /\ blank r = true
              /\ match trim s with
                 | c :: _ => is_space c = false
                 | [] => True
                 end
              /\ match rev (trim s) with
                 | c :: _ => is_space c = false
                 | [] => True
                 end.
Proof.
  destruct (trimStart_split s) as (l & Hs & Hl & Hc).
  destruct (trimStart_split (rev (trimStart s))) as (r & Hr & Hbr & Hcr).
  exists l, (rev r). unfold trim, trimEnd.
  assert (Hmid : trimStart s = rev (trimStart (rev (trimStart s))) ++ rev r).
  { rewrite <- rev_app_distr, <- Hr, rev_involutive. reflexivity. }
  repeat split.
  - rewrite <- Hmid. exact Hs.
  - exact Hl.
  - rewrite blank_rev. exact Hbr.
  - set (mid := rev (trimStart (rev (trimStart s)))) in *.
    rewrite Hmid in Hc. destruct mid as [|c m]; [exact I | exact Hc].
  - rewrite rev_involutive. exact Hcr.
Qed.

(** X8. The assignee is trimmed or null: [getAssignedToOrNull] gives
    null exactly when the field is missing, empty or made of white
    space, so that such a value never passes the check of the submit
    handler; otherwise it gives the value without the white space
    around it, which is not empty and neither starts nor ends with
    white space. *)
Theorem getAssignedToOrNull_trimmed (value : option jsstring) :
  (getAssignedToOrNull value = None <->
   blank (match value with Some s => s | None => [] end) = true)
  /\ forall v : jsstring,
      getAssignedToOrNull value = Some v ->
      v <> []
      /\ (exists l r, match value with Some s => s | None => [] end = l ++ v ++ r
                      /\ blank l = true /\ blank r = true)
      /\ is_space (hd 0 v) = false
      /\ is_space (hd 0 (rev v)) = false.
Proof.
  unfold getAssignedToOrNull.
  set (s := match value with Some s => s | None => [] end).
  pose proof (trim_blank s) as Hb. split.
  - destruct (str_empty (trim s)); rewrite <- Hb; split; congruence.
  - intros v Hv.
    destruct (trim_split s) as (l & r & Hs & Hl & Hr & Hc & Hd).
    destruct (trim s) as [|c m] eqn:E; [discriminate Hv|].
    injection Hv as <-. repeat split.
    + discriminate.
    + exists l, r. repeat split; assumption.
    + exact Hc.
    + destruct (rev (c :: m)) as [|c' m'] eqn:Er; [|exact Hd].
      apply (f_equal (@rev Z)) in Er. rewrite rev_involutive in Er.
      discriminate Er.
Qed.

(* ------------------------------------------------------------------ *)
(** ** Further properties: one click on the download button            *)
(* ------------------------------------------------------------------ *)

Section ClickFacts.

Variable I18N : json -> option json.
Variable atob : json -> attempt (list byte).
Variable fetch : jsstring -> attempt response.



End ClickFacts.

(* ------------------------------------------------------------------ *)
(** ** Further properties: the request, the submit handler, the files  *)
(* ------------------------------------------------------------------ *)

Lemma getAssignedToOrNull_blank (value : option jsstring) :
  blank (match value with Some s => s | None => [] end) = true ->
  getAssignedToOrNull value = None.
Proof.
  intros H. unfold getAssignedToOrNull. rewrite trim_blank, H. reflexivity.
Qed.

Lemma getAssignedToOrNull_some (value : option jsstring) (v : jsstring) :
  getAssignedToOrNull value = Some v ->
  v <> [] /\ is_space (hd 0 v) = false /\ is_space (hd 0 (rev v)) = false.
Proof.
  unfold getAssignedToOrNull.
  set (s := match value with Some s => s | None => [] end).
  destruct (trim_split s) as (l & r & _ & _ & _ & Hc & Hd).
  destruct (trim s) as [|c m] eqn:E; [discriminate|].
  intros H; injection H as <-. split; [discriminate|]. split; [exact Hc|].
  destruct (rev (c :: m)) as [|c' m'] eqn:Er; [|exact Hd].
  apply (f_equal (@rev Z)) in Er. rewrite rev_involutive in Er. discriminate Er.
Qed.

Section HandlerFacts.

Variable JSON_parse : jsstring -> option json.
Variable I18N : json -> option json.
Variable coerce : json -> num.
Variable now : nat -> Q.
Variable toLowerCase : jsstring -> jsstring.
Variable post : request -> attempt stream_response.



(** X10. A response that is not ok is never read as a stream: the call
    throws at once, no event is dispatched and the state is the one it
    was called in.  When the content type names application/json (in
    any case of letters) and the body parses to an object, a code that
    the message table knows gives the text of the table, whatever the
    message says; a body that cannot be read as JSON gives the generic
    message.  For any other content type the text of the body is the
    message as it stands, and the generic message replaces an empty or
    unreadable body. *)
Theorem response_not_ok (req : request) (s : state) (resp : stream_response) :
  post req = Success resp -> sr_ok resp = false ->
  generateViaStream_fetch JSON_parse I18N coerce now toLowerCase post req s
    = ([], s, Thrown (response_error I18N toLowerCase resp))
  /\ (includes (lit "application/json")
               (toLowerCase (match sr_content_type resp with
                             | Some h => h
                             | None => []
                             end)) = true ->
      (forall (fields : list (jsstring * json)) (c m : json),
          sr_json resp = Success (JObj fields) ->
          get (JObj fields) "code" = Some c -> truthy c = true ->
          I18N c = Some m -> truthy m = true ->
          response_error I18N toLowerCase resp = Error m)
      /\ (forall x, sr_json resp = Failure x ->
                    response_error I18N toLowerCase resp
                    = Error (UI_REQUEST_FAILED I18N)))
  /\ (includes (lit "application/json")
               (toLowerCase (match sr_content_type resp with
                             | Some h => h
                             | None => []
                             end)) = false ->
      (forall body, sr_text resp = Success body -> body <> [] ->
                    response_error I18N toLowerCase resp = Error (JStr body))
      /\ (sr_text resp = Success [] \/ (exists x, sr_text resp = Failure x) ->
          response_error I18N toLowerCase resp = Error (UI_REQUEST_FAILED I18N))).
Proof.
  intros Hpost Hok. split; [|split].
  - unfold generateViaStream_fetch. rewrite Hpost, Hok. reflexivity.
  - intros Hct. unfold response_error. rewrite Hct. split.
    + intros fields c m -> Hc Htc Hm Htm.
      rewrite Hc. cbn [truthy_opt]. rewrite Htc. unfold t. rewrite Htc, Hm, Htm.
      reflexivity.
    + intros x ->. reflexivity.
  - intros Hct. unfold response_error. rewrite Hct. split.
    + intros body -> Hb. destruct body; [now elim Hb | reflexivity].
    + intros [-> | [x ->]]; reflexivity.
Qed.

(** X11. The gate of the submit handler: when the form has no stream
    URL, or no file is selected, or the assignee is missing, empty or
    made of white space, nothing is sent; the handler shows an error and
    leaves the last run, its payload, the overlay, the submit button and
    the selection as they were. *)
Theorem submit_gate (streamUrl : option jsstring) (cookie : jsstring)
        (assigned : option jsstring) (p : page) :
  streamUrl = None \/ streamUrl = Some [] \/ selectedFile p = None
  \/ blank (match assigned with Some s => s | None => [] end) = true ->
  snd (submit JSON_parse I18N coerce now toLowerCase post streamUrl cookie
              assigned p) = []
  /\ run (fst (submit JSON_parse I18N coerce now toLowerCase post streamUrl
                      cookie assigned p)) = run p
  /\ selectedFile (fst (submit JSON_parse I18N coerce now toLowerCase post
                               streamUrl cookie assigned p)) = selectedFile p
  /\ overlay_shown (fst (submit JSON_parse I18N coerce now toLowerCase post
                                streamUrl cookie assigned p)) = overlay_shown p
  /\ submit_disabled (fst (submit JSON_parse I18N coerce now toLowerCase post
                                  streamUrl cookie assigned p))
     = submit_disabled p
  /\ exists m,
      modal (fst (submit JSON_parse I18N coerce now toLowerCase post streamUrl
                         cookie assigned p)) = Some (Message m).
Proof.
  intros H. unfold submit.
  destruct streamUrl as [[|c url]|];
    try (cbn; repeat split; eexists; reflexivity).
  destruct (selectedFile p) as [f|] eqn:Ef;
    [|cbn; rewrite ?Ef; repeat split; eexists; reflexivity].
  destruct H as [H|[H|[H|H]]]; try discriminate H.
  rewrite (getAssignedToOrNull_blank assigned H).
  cbn. rewrite ?Ef. repeat split. eexists; reflexivity.
Qed.


End HandlerFacts.

Section SessionFacts.

Variable JSON_parse : jsstring -> option json.
Variable I18N : json -> option json.
Variable coerce : json -> num.
Variable now : nat -> Q.
Variable toLowerCase : jsstring -> jsstring.
Variable post : request -> attempt stream_response.
Variable streamUrl : option jsstring.
Variable cookie : jsstring.

Lemma selectFile_settled_selection (f : option file) (p : page) :
  selectedFile (selectFile_settled I18N toLowerCase f p) =
  match f with
  | Some _ => if isAllowedFile toLowerCase f then f else None
  | None => None
  end.
Proof.
  unfold selectFile_settled, selectFile. destruct f as [x|]; [|reflexivity].
  destruct (isAllowedFile toLowerCase (Some x)); reflexivity.
Qed.

Lemma selectFile_settled_allowed (f : option file) (p : page) :
  selection_allowed toLowerCase (selectFile_settled I18N toLowerCase f p).
Proof.
  unfold selection_allowed. rewrite selectFile_settled_selection.
  destruct f as [x|]; [|exact I].
  destruct (isAllowedFile toLowerCase (Some x)) eqn:E; [exact E | exact I].
Qed.

(** X13. An unsupported file costs the selection: [selectFile] with a
    file whose lower-cased name ends neither in .pdf nor in .docx only
    opens the error modal, and once that modal is closed no file is
    selected any more, also when an allowed file was selected before,
    the pill is hidden, the hint says that no file is selected and the
    payload of the last run is dropped.  With an allowed file the file
    is selected, the hint shows its name, the pill is shown and the
    payload of the last run is dropped as well. *)
Theorem selectFile_outcome (x : file) (p : page) :
  (isAllowedFile toLowerCase (Some x) = false ->
   selectFile I18N toLowerCase (Some x) p
     = with_modal p (Some (Message (UI_UNSUPPORTED_FILE I18N)))
   /\ selectedFile (selectFile_settled I18N toLowerCase (Some x) p) = None
   /\ fileInput_value (selectFile_settled I18N toLowerCase (Some x) p) = None
   /\ fileHint (selectFile_settled I18N toLowerCase (Some x) p) = UI_NO_FILE I18N
   /\ filePill_shown (selectFile_settled I18N toLowerCase (Some x) p) = false
   /\ lastCsvB64 (run (selectFile_settled I18N toLowerCase (Some x) p)) = JNull
   /\ modal (selectFile_settled I18N toLowerCase (Some x) p) = None)
  /\ (isAllowedFile toLowerCase (Some x) = true ->
      selectedFile (selectFile_settled I18N toLowerCase (Some x) p) = Some x
      /\ fileHint (selectFile_settled I18N toLowerCase (Some x) p)
         = JStr (file_name x)
      /\ filePill_shown (selectFile_settled I18N toLowerCase (Some x) p) = true
      /\ fileSize (selectFile_settled I18N toLowerCase (Some x) p)
         = Some (UI_SIZE I18N, file_size x)
      /\ lastCsvB64 (run (selectFile_settled I18N toLowerCase (Some x) p)) = JNull
      /\ lastFilename (run (selectFile_settled I18N toLowerCase (Some x) p))
         = TC_csv).
Proof.
  unfold selectFile_settled, selectFile. split; intros ->; cbn; repeat split.
Qed.

Lemma handle_sent (e : event) (p : page) :
  selection_allowed toLowerCase p ->
  selection_allowed toLowerCase
    (fst (handle JSON_parse I18N coerce now toLowerCase post streamUrl cookie e p))
  /\ Forall (fun r =>
               isAllowedFile toLowerCase (Some (req_document r)) = true
               /\ streamUrl = Some (req_url r)
               /\ req_assigned_to r <> []
               /\ is_space (hd 0 (req_assigned_to r)) = false
               /\ is_space (hd 0 (rev (req_assigned_to r))) = false
               /\ req_csrf r = getCookie cookie (lit "csrftoken"))
            (snd (handle JSON_parse I18N coerce now toLowerCase post streamUrl
                         cookie e p)).
Proof.
  intros Hp. destruct e as [files|files| |assigned]; cbn [handle fst snd].
  - split; [apply selectFile_settled_allowed | constructor].
  - split; [|constructor]. unfold on_drop.
    destruct files; [exact Hp | apply selectFile_settled_allowed].
  - split; [exact I | constructor].
  - unfold submit.
    destruct streamUrl as [[|c url]|]; try (split; [exact Hp | constructor]).
    unfold selection_allowed in Hp.
    destruct (selectedFile p) as [f|] eqn:Ef;
      [|split; [unfold selection_allowed; cbn; rewrite Ef; exact I | constructor]].
    destruct (getAssignedToOrNull assigned) as [who|] eqn:Ea.
    + destruct (generateViaStream_fetch _ _ _ _ _ _ _ _) as [[ev s1] sg].
      cbn [fst snd]. split.
      * unfold selection_allowed. destruct sg; cbn; rewrite Ef; exact Hp.
      * constructor; [|constructor]. cbn.
        destruct (getAssignedToOrNull_some assigned who Ea) as (H1 & H2 & H3).
        repeat split; assumption.
    + split; [unfold selection_allowed; cbn; rewrite Ef; exact Hp | constructor].
Qed.

(** X14. Only allowed files leave the page: from a page on which no
    file or an allowed file is selected, whatever files are picked,
    dropped and cleared and however often the form is submitted, every
    request sent goes to the stream URL of the form and carries a file
    that [isAllowedFile] accepts, an assignee that is not empty and has
    no white space around it, and the csrftoken of the cookie; and the
    selection is still none or an allowed file at the end. *)
Theorem session_sends_allowed (events : list event) :
  forall p : page,
    selection_allowed toLowerCase p ->
    selection_allowed toLowerCase
      (fst (session JSON_parse I18N coerce now toLowerCase post streamUrl cookie
                    events p))
    /\ Forall (fun r =>
                 isAllowedFile toLowerCase (Some (req_document r)) = true
                 /\ streamUrl = Some (req_url r)
                 /\ req_assigned_to r <> []
                 /\ is_space (hd 0 (req_assigned_to r)) = false
                 /\ is_space (hd 0 (rev (req_assigned_to r))) = false
                 /\ req_csrf r = getCookie cookie (lit "csrftoken"))
              (snd (session JSON_parse I18N coerce now toLowerCase post streamUrl
                            cookie events p)).
Proof.
  induction events as [|e rest IH]; intros p Hp.
  - split; [exact Hp | constructor].
  - cbn [session].
    destruct (handle_sent e p Hp) as [H1 H2].
    destruct (handle _ _ _ _ _ _ _ _ e p) as [p1 sent1]. cbn [fst snd] in *.
    destruct (IH p1 H1) as [H3 H4].
    destruct (session _ _ _ _ _ _ _ _ rest p1) as [p2 sent2]. cbn [fst snd] in *.
    split; [exact H3|]. apply Forall_app. split; assumption.
Qed.

End SessionFacts.

(* ------------------------------------------------------------------ *)
(** ** Further properties: the cookie                                  *)
(* ------------------------------------------------------------------ *)

Lemma strip_prefix_app (a r : jsstring) : strip_prefix a (a ++ r) = Some r.
Proof.
  induction a as [|c a IH]; [reflexivity|]. cbn. rewrite Z.eqb_refl. exact IH.
Qed.

Lemma strip_prefix_common (a b s : jsstring) :
  strip_prefix (a ++ b) (a ++ s) = strip_prefix b s.
Proof.
  induction a as [|c a IH]; [reflexivity|]. cbn. rewrite Z.eqb_refl. exact IH.
Qed.

Lemma split_from_skip (sep a rest piece : jsstring) :
  split_from sep (a ++ rest) (List.length a) piece = split_from sep rest 0 piece.
Proof.
  induction a as [|c a IH]; [destruct rest; reflexivity|]. exact IH.
Qed.

Lemma split_from_match (sep rest piece : jsstring) :
  sep <> [] ->
  split_from sep (sep ++ rest) 0 piece = rev piece :: split_from sep rest 0 [].
Proof.
  intros Hs. destruct sep as [|c sep']; [now elim Hs|].
  change ((c :: sep') ++ rest) with (c :: (sep' ++ rest)).
  cbn [split_from].
  change (c :: sep' ++ rest) with ((c :: sep') ++ rest).
  rewrite strip_prefix_app. f_equal.
  replace (List.length (c :: sep') - 1)%nat with (List.length sep')
    by (cbn; lia).
  apply split_from_skip.
Qed.

Lemma split_from_plain (sep w rest piece : jsstring) :
  ~ In SEMICOLON w ->
  split_from (SEMICOLON :: sep) (w ++ rest) 0 piece =
  split_from (SEMICOLON :: sep) rest 0 (rev w ++ piece).
Proof.
  revert piece; induction w as [|c w IH]; intros piece Hw; [reflexivity|].
  assert (Hc : (c =? SEMICOLON) = false).
  { apply Z.eqb_neq. intros ->. apply Hw. now left. }
  cbn [app split_from strip_prefix]. rewrite Hc.
  rewrite IH by (intros H; apply Hw; now right).
  cbn [rev]. rewrite <- app_assoc. reflexivity.
Qed.

(** The name of a cookie against the name asked for. *)
Lemma strip_name (name n rest : jsstring) :
  ~ In EQUALS name -> ~ In EQUALS n ->
  strip_prefix (name ++ [EQUALS]) (n ++ EQUALS :: rest) =
  if str_eqb n name then Some rest else None.
Proof.
  revert n; induction name as [|a name IH]; intros [|c n] Hname Hn;
    cbn [app strip_prefix str_eqb].
  - rewrite Z.eqb_refl. reflexivity.
  - destruct (c =? EQUALS) eqn:E; [|reflexivity].
    apply Z.eqb_eq in E. exfalso; apply Hn; left; auto.
  - destruct (EQUALS =? a) eqn:E; [|reflexivity].
    apply Z.eqb_eq in E. exfalso; apply Hname; left; auto.
  - destruct (c =? a); [|reflexivity]. cbn [andb].
    apply IH; intros H; [apply Hname | apply Hn]; right; exact H.
Qed.

Lemma entries_head (jar : list (jsstring * jsstring)) :
  entries jar = [] \/ exists r, entries jar = SEMICOLON :: r.
Proof.
  destruct jar as [|nv jar]; [left; reflexivity|].
  right. eexists. reflexivity.
Qed.

Lemma cookie_text_entries (jar : list (jsstring * jsstring)) :
  jar <> [] -> lit "; " ++ cookie_text jar = entries jar.
Proof.
  induction jar as [|[n v] jar IH]; intros H; [now elim H|].
  destruct jar as [|nv' jar'].
  - cbn [cookie_text entries flat_map entry fst snd].
    rewrite !app_nil_r. reflexivity.
  - change (cookie_text ((n, v) :: nv' :: jar'))
      with (n ++ lit "=" ++ v ++ lit "; " ++ cookie_text (nv' :: jar')).
    change (entries ((n, v) :: nv' :: jar'))
      with (entry (n, v) ++ entries (nv' :: jar')).
    rewrite <- IH by discriminate.
    unfold entry, fst, snd. rewrite <- !app_assoc. reflexivity.
Qed.

Section CookieFacts.

Variable name : jsstring.
Hypothesis name_no_semicolon : ~ In SEMICOLON name.
Hypothesis name_no_equals : ~ In EQUALS name.

Lemma split_entries (jar : list (jsstring * jsstring)) :
  well_formed_jar jar ->
  forall piece : jsstring,
    split_from (lit "; " ++ name ++ lit "=") (entries jar) 0 piece =
    jar_pieces name jar piece.
Proof.
  induction jar as [|[n v] jar IH]; intros Hwf piece; [reflexivity|].
  inversion Hwf as [|? ? (Hn1 & Hn2 & Hv) Hwf']; subst. cbn [fst snd] in *.
  change (entries ((n, v) :: jar)) with (entry (n, v) ++ entries jar).
  cbn [jar_pieces fst snd].
  assert (Hstrip :
            strip_prefix (lit "; " ++ name ++ lit "=")
                         (entry (n, v) ++ entries jar) =
            if str_eqb n name then Some (v ++ entries jar) else None).
  { unfold entry, fst, snd. rewrite <- !app_assoc.
    rewrite strip_prefix_common.
    change (lit "=" ++ v ++ entries jar) with (EQUALS :: v ++ entries jar).
    apply strip_name; assumption. }
  destruct (str_eqb n name) eqn:E.
  - apply str_eqb_eq in E; subst n.
    assert (Hsplit : entry (name, v) ++ entries jar =
                     (lit "; " ++ name ++ lit "=") ++ v ++ entries jar).
    { unfold entry, fst, snd. rewrite <- !app_assoc. reflexivity. }
    rewrite Hsplit, split_from_match by discriminate. f_equal.
    change (lit "; " ++ name ++ lit "=")
      with (SEMICOLON :: (32 :: name ++ lit "=")).
    rewrite split_from_plain by exact Hv. rewrite app_nil_r.
    apply (IH Hwf').
  - change (entry (n, v) ++ entries jar)
      with (SEMICOLON :: ((32 :: n ++ lit "=" ++ v) ++ entries jar)) in *.
    cbn [split_from]. rewrite Hstrip.
    change (lit "; " ++ name ++ lit "=")
      with (SEMICOLON :: (32 :: name ++ lit "=")).
    rewrite split_from_plain.
    + change (SEMICOLON :: (32 :: name ++ lit "="))
        with (lit "; " ++ name ++ lit "=").
      rewrite (IH Hwf'). f_equal.
      change (entry (n, v)) with (SEMICOLON :: (32 :: n ++ lit "=" ++ v)).
      cbn [rev]. rewrite <- !app_assoc. reflexivity.
    + intros [H|H]; [discriminate H|].
      apply in_app_or in H as [H|H]; [now apply Hn1|].
      cbn in H. destruct H as [H|H]; [discriminate H | now apply Hv].
Qed.

Lemma jar_pieces_length (jar : list (jsstring * jsstring)) :
  forall piece : jsstring,
    List.length (jar_pieces name jar piece) = S (List.length (named name jar)).
Proof.
  induction jar as [|nv jar IH]; intros piece; [reflexivity|].
  cbn [jar_pieces named filter]. fold (named name jar).
  destruct (str_eqb (fst nv) name); cbn; rewrite IH; reflexivity.
Qed.

Lemma jar_pieces_none (jar : list (jsstring * jsstring)) :
  forall piece : jsstring,
    named name jar = [] ->
    jar_pieces name jar piece = [rev piece ++ entries jar].
Proof.
  induction jar as [|nv jar IH]; intros piece H.
  - cbn. rewrite app_nil_r. reflexivity.
  - cbn [jar_pieces named filter] in *. fold (named name jar) in H.
    destruct (str_eqb (fst nv) name); [discriminate H|].
    rewrite (IH _ H), rev_app_distr, rev_involutive, <- app_assoc. reflexivity.
Qed.

Lemma jar_pieces_one (jar : list (jsstring * jsstring)) :
  forall (piece : jsstring) (nv : jsstring * jsstring),
    named name jar = [nv] ->
    exists first rest,
      jar_pieces name jar piece = [first; snd nv ++ rest]
      /\ (rest = [] \/ exists r, rest = SEMICOLON :: r).
Proof.
  induction jar as [|nv0 jar IH]; intros piece nv H; [discriminate H|].
  cbn [jar_pieces named filter] in *. fold (named name jar) in H.
  destruct (str_eqb (fst nv0) name).
  - injection H as -> Hrest.
    rewrite (jar_pieces_none jar _ Hrest), rev_involutive.
    exists (rev piece), (entries jar). split; [reflexivity | apply entries_head].
  - apply IH. exact H.
Qed.

Lemma before_semicolon_value (v rest : jsstring) :
  ~ In SEMICOLON v -> rest = [] \/ (exists r, rest = SEMICOLON :: r) ->
  before_semicolon (v ++ rest) = v.
Proof.
  intros Hv Hr. induction v as [|c v IH].
  - destruct Hr as [-> | [r ->]]; reflexivity.
  - cbn. destruct (c =? SEMICOLON) eqn:E.
    + apply Z.eqb_eq in E. exfalso; apply Hv; left; auto.
    + f_equal. apply IH. intros H; apply Hv; right; exact H.
Qed.

(** X15. The cookie read from the jar: for the text [document.cookie]
    gives for a jar of well-formed cookies, [getCookie] returns the
    value of the cookie of that name when the jar holds exactly one,
    whole and without what follows it, and the empty string when the
    jar holds none, and also when it holds more than one. *)
Theorem getCookie_of_jar (jar : list (jsstring * jsstring)) :
  well_formed_jar jar ->
  getCookie (cookie_text jar) name =
  match named name jar with
  | [nv] => snd nv
  | _ => []
  end.
Proof.
  intros Hwf. unfold getCookie, split_on.
  destruct jar as [|nv0 jar0] eqn:Ejar.
  - cbn [cookie_text named filter]. rewrite app_nil_r.
    change (lit "; " ++ name ++ lit "=") with (SEMICOLON :: (32 :: name ++ lit "=")).
    change (lit "; ") with ([SEMICOLON] ++ [32] ++ []).
    cbn [app split_from strip_prefix]. rewrite !Z.eqb_refl.
    destruct (name ++ lit "=") eqn:En; [destruct name; discriminate En|].
    cbn. reflexivity.
  - rewrite <- Ejar in *. rewrite cookie_text_entries by (rewrite Ejar; discriminate).
    rewrite (split_entries jar Hwf []).
    pose proof (jar_pieces_length jar []) as Hlen.
    destruct (named name jar) as [|nv [|nv' more]] eqn:En.
    + rewrite (jar_pieces_none jar [] En). reflexivity.
    + destruct (jar_pieces_one jar [] nv En) as (first & rest & -> & Hrest).
      apply before_semicolon_value; [|exact Hrest].
      assert (Hin : In nv (named name jar)) by (rewrite En; now left).
      apply filter_In in Hin as [Hin _].
      unfold well_formed_jar in Hwf. rewrite Forall_forall in Hwf.
      apply (Hwf nv Hin).
    + destruct (jar_pieces name jar []) as [|a [|b [|c l]]]; cbn in Hlen;
        try discriminate Hlen; reflexivity.
Qed.

End CookieFacts.

(* ------------------------------------------------------------------ *)
(** ** Further properties: the limit detail, the bar, the estimate     *)
(* ------------------------------------------------------------------ *)

Lemma render_items_map (items : list json) :
  forall acc : list limit_item,
    forallb (fun item => negb (is_null item)) items = true ->
    render_items items acc = (acc ++ map render_item items, None).
Proof.
  induction items as [|item rest IH]; intros acc H.
  - cbn. rewrite app_nil_r. reflexivity.
  - cbn [forallb] in H. apply andb_true_iff in H as [Hi Hr].
    destruct item; try discriminate Hi; cbn [render_items map];
      rewrite (IH _ Hr), <- app_assoc; reflexivity.
Qed.

(** X16. The limit detail shows this event and nothing else: when no
    entry of requirements_limit_reached_detail is null, [applyDoneUI]
    replaces whatever the list held by one item per entry, in the order
    of the entries, with ? for a missing requirement and the omitted
    count only when it is a number; the panel is hidden exactly when
    there is no entry, and the ready card is shown. *)
Theorem limit_detail_rendered (evt : json) (v : ui) :
  forallb (fun item => negb (is_null item)) (detail_items evt) = true ->
  limitDetailList (fst (applyDoneUI evt v)) = map render_item (detail_items evt)
  /\ limitDetail_hidden (fst (applyDoneUI evt v))
     = match detail_items evt with [] => true | _ => false end
  /\ readyCard_shown (fst (applyDoneUI evt v)) = true
  /\ snd (applyDoneUI evt v) = None.
Proof.
  intros H. unfold applyDoneUI. fold (detail_items evt).
  destruct (detail_items evt) as [|item rest] eqn:E.
  - repeat split.
  - rewrite (render_items_map (item :: rest) [] H). repeat split.
Qed.

Section BarFacts.

Variable coerce : json -> num.




End BarFacts.

(* ------------------------------------------------------------------ *)
(** ** Further properties: line breaks and bytes                       *)
(* ------------------------------------------------------------------ *)

Lemma newlines_app (a b : jsstring) : newlines (a ++ b) = (newlines a + newlines b)%nat.
Proof. unfold newlines. rewrite filter_app, length_app. reflexivity. Qed.

Lemma newlines_cons (c : Z) (s : jsstring) :
  newlines (c :: s) = ((if (c =? LF)%Z then 1 else 0) + newlines s)%nat.
Proof.
  unfold newlines. cbn [filter]. rewrite (Z.eqb_sym LF c).
  destruct (c =? LF); reflexivity.
Qed.

Lemma newlines_nil : newlines [] = 0%nat.
Proof. reflexivity. Qed.

Lemma utf16_newlines (cp : Z) :
  newlines (Utf8.utf16 cp) = if cp =? LF then 1%nat else 0%nat.
Proof.
  unfold Utf8.utf16. destruct (cp <? 0x10000) eqn:E.
  - rewrite newlines_cons, newlines_nil. lia.
  - apply Z.ltb_ge in E.
    assert (H1 : 0 <= Z.shiftr (cp - 0x10000) 10)
      by (apply Z.shiftr_nonneg; lia).
    assert (H2 : 0 <= Z.land (cp - 0x10000) 0x3FF)
      by (apply Z.land_nonneg; right; lia).
    rewrite !newlines_cons, newlines_nil.
    replace (0xD800 + Z.shiftr (cp - 0x10000) 10 =? LF) with false
      by (symmetry; apply Z.eqb_neq; unfold LF; lia).
    replace (0xDC00 + Z.land (cp - 0x10000) 0x3FF =? LF) with false
      by (symmetry; apply Z.eqb_neq; unfold LF; lia).
    replace (cp =? LF) with false
      by (symmetry; apply Z.eqb_neq; unfold LF; lia).
    reflexivity.
Qed.

Lemma serialize_newlines (cps : list Z) :
  forall seen : bool,
    newlines (snd (Utf8.serialize seen cps)) = newlines cps.
Proof.
  induction cps as [|cp cps IH]; intros seen; [reflexivity|].
  cbn [Utf8.serialize]. specialize (IH true).
  destruct (Utf8.serialize true cps) as [seen' out]. cbn [snd] in IH.
  rewrite newlines_cons, <- IH.
  destruct (negb seen && (cp =? 0xFEFF)) eqn:E; cbn [snd].
  - apply andb_true_iff in E as [_ E]. apply Z.eqb_eq in E; subst cp. reflexivity.
  - rewrite newlines_app, utf16_newlines. reflexivity.
Qed.

Lemma lead_newlines (z : Z) :
  newlines (snd (Utf8.lead z)) = if z =? LF then 1%nat else 0%nat.
Proof.
  unfold Utf8.lead, Utf8.between.
  destruct ((0 <=? z) && (z <=? 127)) eqn:E1.
  - cbn [snd]. rewrite newlines_cons, newlines_nil. lia.
  - assert (Hz : (z =? LF) = false).
    { apply Z.eqb_neq. intros ->. discriminate E1. }
    rewrite Hz.
    destruct ((194 <=? z) && (z <=? 223)); [reflexivity|].
    destruct ((224 <=? z) && (z <=? 239)); [reflexivity|].
    destruct ((240 <=? z) && (z <=? 244)); reflexivity.
Qed.

Lemma lead_ok (z : Z) : open_sequence_ok (fst (Utf8.lead z)).
Proof.
  unfold Utf8.lead, Utf8.between.
  destruct ((0 <=? z) && (z <=? 127)); [left; reflexivity|].
  destruct ((194 <=? z) && (z <=? 223)) eqn:E2.
  { right. cbn. split; [lia|]. left.
    apply andb_true_iff in E2 as [Ha Hb].
    apply Z.leb_le in Ha, Hb. intros H.
    assert (Hm : Z.land z 31 = z mod 32) by (apply (Z.land_ones z 5); lia).
    rewrite Hm in H. pose proof (Z.div_mod z 32 ltac:(lia)). lia. }
  destruct ((224 <=? z) && (z <=? 239)) eqn:E3.
  { right. cbn [fst Utf8.lower_boundary Utf8.code_point Utf8.bytes_seen
                Utf8.bytes_needed Utf8.upper_boundary].
    apply andb_true_iff in E3 as [Ha Hb]. apply Z.leb_le in Ha, Hb.
    split; [destruct (z =? 224); lia|].
    destruct (z =? 224) eqn:E.
    - right. repeat split; try lia. destruct (z =? 237); lia.
    - left. apply Z.eqb_neq in E. intros H.
      assert (Hm : Z.land z 15 = z mod 16) by (apply (Z.land_ones z 4); lia).
      rewrite Hm in H. pose proof (Z.div_mod z 16 ltac:(lia)). lia. }
  destruct ((240 <=? z) && (z <=? 244)) eqn:E4.
  { right. cbn [fst Utf8.lower_boundary Utf8.code_point Utf8.bytes_seen
                Utf8.bytes_needed Utf8.upper_boundary].
    apply andb_true_iff in E4 as [Ha Hb]. apply Z.leb_le in Ha, Hb.
    split; [destruct (z =? 240); lia|].
    destruct (z =? 240) eqn:E.
    - right. repeat split; try lia. destruct (z =? 244); lia.
    - left. apply Z.eqb_neq in E. intros H.
      assert (Hm : Z.land z 7 = z mod 8) by (apply (Z.land_ones z 3); lia).
      rewrite Hm in H. pose proof (Z.div_mod z 8 ltac:(lia)). lia. }
  left. reflexivity.
Qed.

Lemma gathered_bits_zero (c z : Z) :
  Z.lor (Z.shiftl c 6) (Z.land z 63) = 0 -> c = 0.
Proof.
  intros H. apply Z.lor_eq_0_iff in H as [H _].
  apply Z.shiftl_eq_0_iff in H; [exact H | lia].
Qed.

Lemma gathered_bits_newline (c z : Z) :
  Z.lor (Z.shiftl c 6) (Z.land z 63) = LF -> c = 0.
Proof.
  intros H. apply (f_equal (fun x => Z.shiftr x 6)) in H.
  rewrite Z.shiftr_lor, Z.shiftr_shiftl_l, Z.sub_diag, Z.shiftl_0_r in H by lia.
  rewrite Z.shiftr_land in H. change (Z.shiftr 63 6) with 0 in H.
  rewrite Z.land_0_r, Z.lor_0_r in H. exact H.
Qed.

Lemma low_bits_of_bounded (z lo hi : Z) :
  0x80 < lo -> hi <= 0xBF -> lo <= z <= hi -> Z.land z 63 <> 0.
Proof.
  intros Hlo Hhi Hz H.
  assert (Hm : Z.land z 63 = z mod 64) by (apply (Z.land_ones z 6); lia).
  rewrite Hm in H. pose proof (Z.div_mod z 64 ltac:(lia)). lia.
Qed.

(** One byte through the machine: the invariant is kept, and a newline
    comes out exactly for the byte 0x0A. *)
Lemma handler_newlines (u : Utf8.utf8) (z : Z) :
  open_sequence_ok u ->
  open_sequence_ok (fst (Utf8.handler u z))
  /\ newlines (snd (Utf8.handler u z)) = if z =? LF then 1%nat else 0%nat.
Proof.
  intros Hu. unfold Utf8.handler.
  destruct (Utf8.bytes_needed u =? 0) eqn:En.
  { split; [apply lead_ok | apply lead_newlines]. }
  apply Z.eqb_neq in En.
  destruct Hu as [Hu | (Hlow & Hbits)]; [contradiction|].
  destruct (negb (Utf8.between (Utf8.lower_boundary u) (Utf8.upper_boundary u) z))
    eqn:Er.
  { pose proof (lead_ok z) as Hl. pose proof (lead_newlines z) as Hn.
    destruct (Utf8.lead z) as [u' out]. cbn [fst snd] in *.
    split; [exact Hl|].
    rewrite newlines_cons. exact Hn. }
  apply negb_false_iff in Er. unfold Utf8.between in Er.
  apply andb_true_iff in Er as [Ha Hb]. apply Z.leb_le in Ha, Hb.
  assert (Hz : (z =? LF) = false) by (apply Z.eqb_neq; unfold LF; lia).
  rewrite Hz.
  destruct (Utf8.bytes_seen u + 1 =? Utf8.bytes_needed u) eqn:Es.
  - cbn [fst snd]. split; [left; reflexivity|].
    rewrite newlines_cons, newlines_nil.
    destruct (Z.lor (Z.shiftl (Utf8.code_point u) 6) (Z.land z 63) =? LF) eqn:E;
      [|reflexivity].
    apply Z.eqb_eq in E. apply gathered_bits_newline in E.
    apply Z.eqb_eq in Es.
    destruct Hbits as [Hc | (Hseen & Hneed & _)]; [contradiction | lia].
  - cbn [fst snd]. split; [|reflexivity].
    right. cbn. split; [lia|]. left. intros H.
    pose proof (gathered_bits_zero _ _ H) as Hc.
    destruct Hbits as [Hc' | (_ & _ & Hlo & Hhi)]; [contradiction|].
    apply Z.lor_eq_0_iff in H as [_ H].
    apply (low_bits_of_bounded z _ _ Hlo Hhi); [lia | exact H].
Qed.

Lemma byte_is_newline (b : byte) :
  (Z.of_N (Byte.to_N b) =? LF) = Byte.eqb x0a b.
Proof. destruct b; reflexivity. Qed.

Lemma decode_newlines (bs : list byte) :
  forall d : Utf8.TextDecoder,
    open_sequence_ok (Utf8.machine d) ->
    newlines (snd (Utf8.decode d bs)) = newline_bytes bs.
Proof.
  induction bs as [|b bs IH]; intros d Hd; [reflexivity|].
  cbn [Utf8.decode]. unfold Utf8.decode_byte.
  pose proof (handler_newlines (Utf8.machine d) (Z.of_N (Byte.to_N b)) Hd)
    as [Hok Hn].
  destruct (Utf8.handler (Utf8.machine d) (Z.of_N (Byte.to_N b))) as [u cps].
  pose proof (serialize_newlines cps (Utf8.BOM_seen d)) as Hs.
  destruct (Utf8.serialize (Utf8.BOM_seen d) cps) as [seen out].
  cbn [fst snd] in *.
  specialize (IH (Utf8.mk_decoder u seen) Hok).
  destruct (Utf8.decode (Utf8.mk_decoder u seen) bs) as [d2 out2].
  cbn [snd] in *. rewrite newlines_app, IH, Hs, Hn, byte_is_newline.
  unfold newline_bytes. cbn [filter]. destruct (Byte.eqb x0a b); reflexivity.
Qed.

Lemma split_nl_length (s : jsstring) :
  List.length (split_nl s) = S (newlines s).
Proof.
  induction s as [|c s IH]; [reflexivity|].
  cbn [split_nl]. rewrite newlines_cons. destruct (c =? LF).
  - cbn [List.length]. rewrite IH. reflexivity.
  - destruct (split_nl s) as [|l ls]; [discriminate IH | exact IH].
Qed.

(** X19. Line breaks are the 0x0A bytes: whatever bytes a body is made
    of, well-formed UTF-8 or not, and however it is cut into chunks, the
    text decoded from it holds exactly as many newlines as the body
    holds bytes 0x0A, so the read loop is handed exactly that many
    lines.  No multi-byte or ill-formed sequence makes or hides a line
    break. *)
Theorem lines_are_newline_bytes (chunks : list (list byte)) :
  newlines (decoded chunks) = newline_bytes (List.concat chunks)
  /\ List.length (complete_lines (decoded chunks))
     = newline_bytes (List.concat chunks).
Proof.
  assert (H : newlines (decoded chunks) = newline_bytes (List.concat chunks)).
  { unfold decoded. apply decode_newlines. left. reflexivity. }
  split; [exact H|].
  unfold complete_lines, pop, fst.
  pose proof (split_nl_length (decoded chunks)) as Hl.
  destruct (split_nl (decoded chunks)) as [|l ls] eqn:E; [discriminate Hl|].
  rewrite <- H. rewrite <- E in *.
  assert (Hr : forall (A : Type) (xs : list A),
             xs <> [] -> S (List.length (removelast xs)) = List.length xs).
  { intros A xs Hx. destruct (exists_last Hx) as (xs' & x & ->).
    rewrite removelast_last, length_app. cbn. lia. }
  specialize (Hr _ (split_nl (decoded chunks)) (split_nl_nonempty _)). lia.
Qed.

(* ------------------------------------------------------------------ *)
(** ** Further properties: the file name of the header, the extension  *)
(* ------------------------------------------------------------------ *)

Lemma ci_match_not_quote (p c : Z) :
  p <> QUOTE -> ci_match p c = true -> c <> QUOTE.
Proof.
  unfold ci_match, QUOTE. intros Hp H.
  apply orb_true_iff in H as [H|H].
  - apply Z.eqb_eq in H. lia.
  - apply andb_true_iff in H as [H1 H2]. apply andb_true_iff in H1 as [H0 H1].
    apply Z.leb_le in H0. apply Z.eqb_eq in H2. lia.
Qed.

(** What a text that matches a pattern free of quotes looks like. *)
Lemma ci_prefix_no_quote (pat : jsstring) :
  ~ In QUOTE pat ->
  forall s rest, ci_prefix pat s = Some rest ->
                 exists head, s = head ++ rest
                              /\ List.length head = List.length pat
                              /\ ~ In QUOTE head.
Proof.
  induction pat as [|p pat IH]; intros Hp s rest H.
  - cbn in H. injection H as <-. exists []. repeat split. intros [].
  - destruct s as [|c s]; [discriminate H|]. cbn [ci_prefix] in H.
    destruct (ci_match p c) eqn:E; [|discriminate H].
    destruct (IH (fun Hin => Hp (or_intror Hin)) s rest H) as (head & -> & Hl & Hq).
    exists (c :: head). repeat split; [cbn; rewrite Hl; reflexivity|].
    intros [Hc|Hin]; [|contradiction].
    apply (ci_match_not_quote p c); [|exact E|auto].
    intros ->. apply Hp. now left.
Qed.

Lemma ci_prefix_app_pat (a b s : jsstring) :
  ci_prefix (a ++ b) s =
  match ci_prefix a s with
  | Some rest => ci_prefix b rest
  | None => None
  end.
Proof.
  revert s; induction a as [|p a IH]; intros s; [reflexivity|].
  destruct s as [|c s]; [reflexivity|]. cbn [app ci_prefix].
  destruct (ci_match p c); [apply IH | reflexivity].
Qed.

Lemma filename_no_quote : ~ In QUOTE (lit "filename=").
Proof. vm_compute. intuition discriminate. Qed.

(** A match of the whole pattern at the head of a text needs a quote as
    its tenth character. *)
Lemma match_here_tenth (s : jsstring) :
  match_here s <> None -> nth 9 s 0 = QUOTE.
Proof.
  unfold match_here. rewrite ci_prefix_app_pat.
  destruct (ci_prefix (lit "filename=") s) as [rest|] eqn:E; [|congruence].
  destruct (ci_prefix_no_quote (lit "filename=") filename_no_quote s rest E)
    as (head & -> & Hl & _).
  destruct rest as [|c rest]; [cbn; congruence|].
  cbn [ci_prefix]. unfold ci_match at 1.
  destruct (c =? QUOTE) eqn:Ec.
  - intros _. apply Z.eqb_eq in Ec; subst c.
    rewrite app_nth2 by (rewrite Hl; cbn; lia). rewrite Hl. reflexivity.
  - cbn. congruence.
Qed.

Lemma match_here_before (pre body : jsstring) :
  pre <> [] -> ~ In QUOTE pre ->
  (forall k, (k < 9)%nat -> nth k body 0 <> QUOTE) ->
  match_here (pre ++ body) = None.
Proof.
  intros Hne Hq Hbody.
  destruct (match_here (pre ++ body)) eqn:E; [|reflexivity].
  exfalso.
  assert (Ht : nth 9 (pre ++ body) 0 = QUOTE)
    by (apply match_here_tenth; congruence).
  destruct (Nat.lt_ge_cases 9 (List.length pre)) as [Hlt|Hge].
  - rewrite app_nth1 in Ht by exact Hlt.
    apply Hq. rewrite <- Ht. apply nth_In. exact Hlt.
  - rewrite app_nth2 in Ht by exact Hge.
    apply (Hbody (9 - List.length pre)%nat); [|exact Ht].
    destruct pre; [now elim Hne | cbn [List.length]; lia].
Qed.

(** X20. The name of a plain attachment header: when no quote stands
    before the filename parameter, as in attachment; filename=[name]
    between quotes, [match_filename] gives exactly the characters
    between the two quotes, in whatever case filename is written and
    whatever follows the closing quote. *)
Theorem match_filename_plain (pre head v post : jsstring) :
  ~ In QUOTE pre ->
  ci_prefix (lit "filename=" ++ [QUOTE]) head = Some [] ->
  v <> [] -> ~ In QUOTE v ->
  match_filename (pre ++ head ++ v ++ QUOTE :: post) = Some v.
Proof.
  intros Hpre Hhead Hv Hq.
  assert (Hhere : match_here (head ++ v ++ QUOTE :: post) = Some v).
  { unfold match_here. rewrite (ci_prefix_app _ _ _ Hhead).
    rewrite (span_unquoted_app _ _ Hq). destruct v; [now elim Hv | reflexivity]. }
  assert (Hnine : forall k, (k < 9)%nat ->
                            nth k (head ++ v ++ QUOTE :: post) 0 <> QUOTE).
  { rewrite ci_prefix_app_pat in Hhead.
    destruct (ci_prefix (lit "filename=") head) as [rest|] eqn:E;
      [|discriminate Hhead].
    destruct (ci_prefix_no_quote (lit "filename=") filename_no_quote
                head rest E) as (h9 & -> & Hl & Hnq).
    intros k Hk Hn. rewrite <- app_assoc in Hn.
    rewrite app_nth1 in Hn by (rewrite Hl; exact Hk).
    apply Hnq. rewrite <- Hn. apply nth_In. rewrite Hl. exact Hk. }
  induction pre as [|c pre IH].
  - cbn [app]. destruct (head ++ v ++ QUOTE :: post);
      cbn [match_filename]; rewrite Hhere; reflexivity.
  - assert (Hnone : match_here ((c :: pre) ++ head ++ v ++ QUOTE :: post) = None).
    { apply match_here_before; [discriminate | exact Hpre | exact Hnine]. }
    change ((c :: pre) ++ head ++ v ++ QUOTE :: post)
      with (c :: (pre ++ head ++ v ++ QUOTE :: post)) in *.
    cbn [match_filename]. rewrite Hnone.
    apply IH. intros Hin. apply Hpre. now right.
Qed.

Lemma strip_prefix_split (a s r : jsstring) :
  strip_prefix a s = Some r -> s = a ++ r.
Proof.
  revert s; induction a as [|p a IH]; intros s H.
  - cbn in H. injection H as ->. reflexivity.
  - destruct s as [|c s]; [discriminate H|]. cbn [strip_prefix] in H.
    destruct (c =? p) eqn:E; [|discriminate H].
    apply Z.eqb_eq in E; subst c. cbn. f_equal. apply IH. exact H.
Qed.

Lemma endsWith_iff (suffix s : jsstring) :
  endsWith suffix s = true <-> exists stem, s = stem ++ suffix.
Proof.
  unfold endsWith. split.
  - destruct (strip_prefix (rev suffix) (rev s)) as [r|] eqn:E; [|discriminate].
    intros _. apply strip_prefix_split in E.
    exists (rev r). apply (f_equal (@rev Z)) in E.
    rewrite rev_involutive, rev_app_distr, rev_involutive in E. exact E.
  - intros [stem ->]. rewrite rev_app_distr, strip_prefix_app. reflexivity.
Qed.

Section ExtensionFacts.

Variable toLowerCase : jsstring -> jsstring.

(** X21. What [isAllowedFile] accepts: a file is allowed exactly when
    its name, in lower case, is some stem, possibly empty, followed by
    .pdf or by .docx; nothing after the extension is tolerated, and a
    missing file has the empty name. *)
Theorem isAllowedFile_iff (f : option file) :
  isAllowedFile toLowerCase f = true <->
  exists stem,
    toLowerCase (match f with Some x => file_name x | None => [] end)
    = stem ++ lit ".pdf"
    \/ toLowerCase (match f with Some x => file_name x | None => [] end)
       = stem ++ lit ".docx".
Proof.
  unfold isAllowedFile, ALLOWED_EXTS. cbn [existsb]. rewrite orb_false_r.
  rewrite orb_true_iff, !endsWith_iff. split.
  - intros [[stem H]|[stem H]]; exists stem; [left | right]; exact H.
  - intros [stem [H|H]]; [left | right]; exists stem; exact H.
Qed.

End ExtensionFacts.

(* ------------------------------------------------------------------ *)
(** ** The further properties on sample data                           *)
(* ------------------------------------------------------------------ *)

Module MoreChecks.

Import Sample.
Import MoreSample.

Lemma events_in_wire_order_witness :
  snd (for_lines parse_more no_table no_coercion clock2s
         (start no_table fresh_page)
         [lit "meta3"; lit "beat"; lit "progress13"]) = Normal
  /\ fst (fst (for_lines parse_more no_table no_coercion clock2s
                 (start no_table fresh_page)
                 [lit "meta3"; lit "beat"; lit "progress13"]))
     = parsed parse_more [lit "meta3"; lit "beat"; lit "progress13"].
Proof.
  split; [vm_compute; reflexivity | ].
  apply (proj2 (events_in_wire_order parse_more no_table no_coercion clock2s
                  fresh_page (start no_table fresh_page) good_body
                  [lit "meta3"; lit "beat"; lit "progress13"])).
  vm_compute; reflexivity.
Defined.

Lemma unknown_event_ignored_witness :
  dispatch no_table no_coercion clock2s (start no_table fresh_page)
    future_event = (start no_table fresh_page, Normal)
  /\ snd (fst (for_lines parse_more no_table no_coercion clock2s
                 (start no_table fresh_page)
                 ([lit "meta3"] ++ lit "beat" :: [lit "progress13"])))
     = snd (fst (for_lines parse_more no_table no_coercion clock2s
                   (start no_table fresh_page)
                   ([lit "meta3"] ++ [lit "progress13"])))
  /\ snd (for_lines parse_more no_table no_coercion clock2s
            (start no_table fresh_page)
            ([lit "meta3"] ++ lit "beat" :: [lit "progress13"]))
     = snd (for_lines parse_more no_table no_coercion clock2s
              (start no_table fresh_page)
              ([lit "meta3"] ++ [lit "progress13"])).
Proof.
  apply (unknown_event_ignored parse_more no_table no_coercion clock2s
           (start no_table fresh_page) [lit "meta3"] [lit "progress13"]
           (lit "beat") future_event);
    [reflexivity | reflexivity | discriminate | reflexivity].
Defined.

Lemma success_needs_done_witness :
  snd (generateViaStream parse_more no_table no_coercion clock2s fresh_page
         good_body) = Returned
  /\ exists before evt,
       fst (fst (generateViaStream parse_more no_table no_coercion clock2s
                   fresh_page good_body)) = before ++ [evt]
       /\ is_str (get evt "type") "done" = true
       /\ lastCsvB64
            (snd (fst (generateViaStream parse_more no_table no_coercion
                         clock2s fresh_page good_body)))
          = (if truthy_opt (get evt "csv_b64")
             then or_else (get evt "csv_b64") JNull else JNull)
       /\ lastFilename
            (snd (fst (generateViaStream parse_more no_table no_coercion
                         clock2s fresh_page good_body)))
          = or_else (get evt "filename") TC_csv.
Proof.
  split; [vm_compute; reflexivity | ].
  apply (proj2 (success_needs_done parse_more no_table no_coercion clock2s
                  fresh_page good_body)).
  vm_compute; reflexivity.
Defined.

Lemma failed_run_keeps_download_witness :
  snd (generateViaStream parse_more no_table no_coercion clock2s
         page_with_payload cut_body) <> Returned
  /\ lastCsvB64
       (snd (fst (generateViaStream parse_more no_table no_coercion clock2s
                    page_with_payload cut_body)))
     = str "QUI="
  /\ lastFilename
       (snd (fst (generateViaStream parse_more no_table no_coercion clock2s
                    page_with_payload cut_body)))
     = TC_csv.
Proof.
  split; [vm_compute; discriminate | ].
  apply (failed_run_keeps_download parse_more no_table no_coercion clock2s
           page_with_payload cut_body).
  vm_compute; discriminate.
Defined.


Lemma setProgress_width_bounded_witness :
  exists r,
    progressBar_width (setProgress (Fin (40 # 1)) (Plain JNull) blank_ui)
    = Fin r
    /\ r == 40 # 1.
Proof.
  apply (proj2 (setProgress_width_bounded (Fin (40 # 1)) (Plain JNull)
                  blank_ui) (40 # 1));
    [reflexivity | vm_compute; discriminate | vm_compute; discriminate].
Defined.

Lemma getAssignedToOrNull_trimmed_witness :
  getAssignedToOrNull (Some (lit "  Ana Ruiz  ")) = Some (lit "Ana Ruiz")
  /\ lit "Ana Ruiz" <> []
  /\ (exists l r,
        lit "  Ana Ruiz  " = l ++ lit "Ana Ruiz" ++ r
        /\ blank l = true /\ blank r = true)
  /\ is_space (hd 0%Z (lit "Ana Ruiz")) = false
  /\ is_space (hd 0%Z (rev (lit "Ana Ruiz"))) = false.
Proof.
  split; [reflexivity | ].
  apply (proj2 (getAssignedToOrNull_trimmed (Some (lit "  Ana Ruiz  ")))
           (lit "Ana Ruiz")).
  reflexivity.
Defined.

Lemma response_not_ok_witness :
  generateViaStream_fetch parse_more one_entry no_coercion clock2s
    lower_ascii reject
    (mk_request stream_url report_pdf (lit "Ana") (lit "T0K3N")) fresh_page
  = ([], fresh_page, Thrown (response_error one_entry lower_ascii rejected))
  /\ response_error one_entry lower_ascii rejected
     = Error (str "No requirements were detected.").
Proof.
  destruct (response_not_ok parse_more one_entry no_coercion clock2s
              lower_ascii reject
              (mk_request stream_url report_pdf (lit "Ana") (lit "T0K3N"))
              fresh_page rejected eq_refl eq_refl) as [sent [json_body _]].
  split; [exact sent | ].
  destruct (json_body eq_refl) as [coded _].
  eapply coded; reflexivity.
Defined.

Lemma submit_gate_witness :
  selectedFile first_page = None
  /\ snd (submit parse_more no_table no_coercion clock2s lower_ascii
            (answer good_body) (Some stream_url) (cookie_text jar)
            (Some (lit "Ana")) first_page) = []
  /\ exists m,
       modal (fst (submit parse_more no_table no_coercion clock2s lower_ascii
                     (answer good_body) (Some stream_url) (cookie_text jar)
                     (Some (lit "Ana")) first_page))
       = Some (Message m).
Proof.
  split; [reflexivity | ].
  destruct (submit_gate parse_more no_table no_coercion clock2s lower_ascii
              (answer good_body) (Some stream_url) (cookie_text jar)
              (Some (lit "Ana")) first_page)
    as (nothing_sent & _ & _ & _ & _ & shown);
    [right; right; left; reflexivity | ].
  split; [exact nothing_sent | exact shown].
Defined.


Lemma selectFile_outcome_witness :
  isAllowedFile lower_ascii (Some notes_txt) = false
  /\ selectFile no_table lower_ascii (Some notes_txt) page_with_pdf
     = with_modal page_with_pdf
         (Some (Message (UI_UNSUPPORTED_FILE no_table)))
  /\ selectedFile
       (selectFile_settled no_table lower_ascii (Some notes_txt)
          page_with_pdf) = None.
Proof.
  split; [reflexivity | ].
  destruct (proj1 (selectFile_outcome no_table lower_ascii notes_txt
                     page_with_pdf))
    as (warned & cleared & _); [reflexivity | ].
  split; [exact warned | exact cleared].
Defined.

Lemma session_sends_allowed_witness :
  Forall
    (fun r =>
       isAllowedFile lower_ascii (Some (req_document r)) = true
       /\ Some stream_url = Some (req_url r)
       /\ req_assigned_to r <> []
       /\ is_space (hd 0%Z (req_assigned_to r)) = false
       /\ is_space (hd 0%Z (rev (req_assigned_to r))) = false
       /\ req_csrf r = getCookie (cookie_text jar) (lit "csrftoken"))
    (snd (session parse_more no_table no_coercion clock2s lower_ascii
            (answer good_body) (Some stream_url) (cookie_text jar)
            [Drop [notes_txt]; SubmitForm (Some (lit "Ana"));
             Change [report_pdf]; SubmitForm (Some (lit " "));
             SubmitForm (Some (lit " Ana "))]
            first_page)).
Proof.
  apply (session_sends_allowed parse_more no_table no_coercion clock2s
           lower_ascii (answer good_body) (Some stream_url) (cookie_text jar)
           [Drop [notes_txt]; SubmitForm (Some (lit "Ana"));
            Change [report_pdf]; SubmitForm (Some (lit " "));
            SubmitForm (Some (lit " Ana "))]
           first_page).
  exact I.
Defined.

Lemma getCookie_of_jar_witness :
  getCookie (cookie_text jar) (lit "csrftoken") = lit "T0K3N".
Proof.
  apply (getCookie_of_jar (lit "csrftoken"));
    [vm_compute; intuition discriminate
    | vm_compute; intuition discriminate
    | repeat constructor; vm_compute; intuition discriminate].
Defined.

Lemma limit_detail_rendered_witness :
  limitDetailList (fst (applyDoneUI done_detail blank_ui))
  = map render_item (detail_items done_detail)
  /\ limitDetail_hidden (fst (applyDoneUI done_detail blank_ui))
     = match detail_items done_detail with [] => true | _ :: _ => false end
  /\ readyCard_shown (fst (applyDoneUI done_detail blank_ui)) = true
  /\ snd (applyDoneUI done_detail blank_ui) = None.
Proof.
  apply (limit_detail_rendered done_detail blank_ui).
  reflexivity.
Defined.



Lemma match_filename_plain_witness :
  match_filename
    (lit "attachment; " ++ lit "FileName=" ++ [QUOTE] ++ lit "TC_42.csv"
     ++ QUOTE :: lit "; size=3")
  = Some (lit "TC_42.csv").
Proof.
  apply (match_filename_plain (lit "attachment; ")
           (lit "FileName=" ++ [QUOTE]) (lit "TC_42.csv") (lit "; size=3"));
    [vm_compute; intuition discriminate
    | reflexivity
    | discriminate
    | vm_compute; intuition discriminate].
Defined.

Lemma isAllowedFile_iff_witness :
  isAllowedFile lower_ascii (Some report_pdf) = true.
Proof.
  apply (proj2 (isAllowedFile_iff lower_ascii (Some report_pdf))).
  exists (lit "report"); left; reflexivity.
Defined.

End MoreChecks.
